(** * Self-healing selectors: the resolution-and-repair engine

    A shallow embedding of [SelfHealingSelector] (utils/selectors/self-healing.ts):
    the constructor, [loadCache], [saveCache], [findElement], [healSelector]
    and [clearCache]; of the AI client it calls (config/ai-client.ts); and of
    the reply handling of the AI assertions and of the test maintainer
    ([extractJSON], [extractCodeFromMarkdown], [parseAIResponse] and three
    of the assertions).

    The class talks to four outside parties: the Playwright page, the wall
    clock, the AI client and the file system.  They are gathered in a record
    of oracles over an abstract world; every answer an oracle gives may
    depend on, and change, that world.  The methods themselves run in a small
    monad that threads the object's fields and the world, raises and catches
    JavaScript exceptions, and records what the call did as a list of
    events.

    What the model leaves out.  Console output.  Strings are sequences of
    code units below 256.  The cache object is a finite map from selectors
    to entries: a selector is assumed not to name a property that a plain
    object inherits (such as [__proto__]), and a cache file that parses is
    assumed to parse into well-formed entries; [JSON.stringify] followed by
    [JSON.parse] is taken to give back the map.  A write or an unlink that
    fails leaves the file as it was. *)

From stdpp Require Import gmap strings list fin_maps.
From Stdlib Require Import Ascii String ZArith QArith Lia.

Local Open Scope Z_scope.

(** ** Data *)

(** One value of the [SelectorHealingCache] interface. *)
Record CacheEntry := mkEntry {
  healedSelector : string;
  timestamp : Z;
  confidence : Q
}.

(** [page.locator(selector)]: a lazy handle, nothing is looked up yet. *)
Inductive Locator := locator (selector : string).

(** What the cache file holds: text that [JSON.parse] turns into a cache
    object (kept as that object), or text on which [JSON.parse] throws. *)
Inductive FileData :=
| Json (c : gmap string CacheEntry)
| Unparseable (raw : string).

(** The arguments of [aiClient.askWithImage]. *)
Inductive AIModel := haiku | sonnet | opus.

Record AskRequest := mkAsk {
  ask_prompt : string;
  ask_imageBase64 : string;
  ask_mediaType : string;
  ask_model : AIModel;
  ask_maxTokens : Z;
  ask_systemPrompt : string
}.

(** Exceptions. [JsError] is [new Error(message)]; the others stand for what
    the outside parties throw. *)
Inductive Error :=
| TimeoutError (selector : string)
| PageError
| BackendError
| FsError
| SyntaxError
| JsError (message : string).

Inductive Outcome (A : Type) :=
| Return (a : A)
| Throw (e : Error).
Arguments Return {A} a.
Arguments Throw {A} e.

(** The three places where a selector is waited for. *)
Inductive Site := Primary | Cached | Candidate.

Inductive Event :=
| EvWaitFor (site : Site) (selector : string) (resolved : bool)
| EvDateNow (t : Z)
| EvCacheRead (key : string)
| EvCacheDelete (key : string)
| EvCacheSet (key : string) (entry : CacheEntry)
| EvCacheReset
| EvHealSelector (originalSelector : string)
| EvScreenshot (ok : bool)
| EvEvaluate (ok : bool)
| EvAskWithImage (req : AskRequest) (reply : option string)
| EvReadFile (ok : bool)
| EvWriteFile (content : gmap string CacheEntry) (ok : bool)
| EvUnlink (ok : bool).

(** ** The outside world *)

Record Externals (World : Type) := mkExternals {
  (* page.locator(selector).first().waitFor({ timeout }): true when it
     resolves, false when it rejects *)
  page_waitFor : World -> string -> Z -> bool * World;
  (* Date.now() *)
  date_now : World -> Z * World;
  (* (await page.screenshot({ fullPage: false })).toString('base64') *)
  page_screenshot : World -> option string * World;
  (* JSON.stringify(await page.evaluate(...), null, 2): the inventory *)
  page_evaluate : World -> option string * World;
  (* aiClient.askWithImage(...): None when it rejects *)
  ai_askWithImage : World -> AskRequest -> option string * World;
  (* whether the next readFileSync, writeFileSync or unlinkSync goes through *)
  fs_attempt : World -> bool * World
}.
Arguments page_waitFor {World} _ _ _ _.
Arguments date_now {World} _ _.
Arguments page_screenshot {World} _ _.
Arguments page_evaluate {World} _ _.
Arguments ai_askWithImage {World} _ _ _.
Arguments fs_attempt {World} _ _.

(** ** Strings *)

Definition dquote : ascii := ascii_of_nat 34.
Definition squote : ascii := ascii_of_nat 39.
Definition dq : string := String dquote "".
Definition nl : string := String (ascii_of_nat 10) "".

(** White space of [String.prototype.trim] among the code units below 256:
    tab, line feed, vertical tab, form feed, carriage return, space and the
    no-break space. *)
Definition is_js_space (c : ascii) : bool :=
  let n := nat_of_ascii c in
  ((9 <=? n)%nat && (n <=? 13)%nat) || (n =? 32)%nat || (n =? 160)%nat.

Fixpoint trimStart (s : string) : string :=
  match s with
  | String c s' => if is_js_space c then trimStart s' else s
  | EmptyString => EmptyString
  end.

Definition trimEnd (s : string) : string :=
  String.rev (trimStart (String.rev s)).

Definition trim (s : string) : string := trimEnd (trimStart s).

Definition is_quote (c : ascii) : bool :=
  bool_decide (c = dquote) || bool_decide (c = squote).

(** [s.replace(/^["']|["']$/g, '')]: one quote off the front, then one
    quote off the end of what is left. *)
Definition strip_front (s : string) : string :=
  match s with
  | String c s' => if is_quote c then s' else s
  | EmptyString => EmptyString
  end.

Definition strip_back (s : string) : string :=
  String.rev (strip_front (String.rev s)).

Definition strip_quotes (s : string) : string := strip_back (strip_front s).

(** [response.trim().replace(/^["']|["']$/g, '')] *)
Definition clean_response (response : string) : string :=
  strip_quotes (trim response).

(** Truthiness of a [string | null] and of a [string | undefined]. *)
Definition truthy (v : option string) : bool :=
  match v with
  | Some s => negb (bool_decide (s = ""))
  | None => false
  end.

Definition build_prompt (originalSelector : string) (description : option string)
    (pageStructure : string) : string :=
  nl +:+ "The Playwright selector " +:+ dq +:+ originalSelector +:+ dq +:+ " is not working." +:+ nl
  +:+ (match description with
      | Some d => if truthy description then "This element should be: " +:+ d else ""
      | None => ""
      end) +:+ nl
  +:+ nl
  +:+ "Available elements on the page:" +:+ nl
  +:+ pageStructure +:+ nl
  +:+ nl
  +:+ "Based on the screenshot and available elements, suggest a NEW working selector that would find the intended element." +:+ nl
  +:+ nl
  +:+ "Consider:" +:+ nl
  +:+ "1. data-testid attributes (preferred)" +:+ nl
  +:+ "2. Accessible roles and labels" +:+ nl
  +:+ "3. Unique text content" +:+ nl
  +:+ "4. ID or class combinations" +:+ nl
  +:+ "5. Parent-child relationships" +:+ nl
  +:+ nl
  +:+ "Return ONLY the new selector string, nothing else. Examples:" +:+ nl
  +:+ "- [data-testid=" +:+ dq +:+ "submit-button" +:+ dq +:+ "]" +:+ nl
  +:+ "- button:has-text(" +:+ dq +:+ "Submit" +:+ dq +:+ ")" +:+ nl
  +:+ "- #login-form >> button" +:+ nl
  +:+ "- [aria-label=" +:+ dq +:+ "Close dialog" +:+ dq +:+ "]" +:+ nl
  +:+ nl
  +:+ "NEW SELECTOR:".

Definition system_prompt : string :=
  "You are a Playwright selector expert. Analyze the page and suggest the most reliable selector." +:+ nl
  +:+ "Prefer data-testid, then accessible roles, then stable attributes. Avoid brittle selectors based on DOM position.".

(** The message of the error [findElement] throws. *)
Definition failure_message (selector : string) : string :=
  "Could not find or heal selector: " +:+ selector.

(** The bounded wait, in milliseconds, and the cache lifetime. *)
Definition wait_timeout : Z := 2000.
Definition cache_ttl : Z := 3600000.
Definition default_confidence : Q := 8 # 10.

(** ** The class *)

Declare Scope method_scope.

Section SelfHealingSelector.

Context {World : Type} (ext : Externals World).

(** The fields of the object ([enabled], [cache]), the content of the file
    at [cacheFile] ([None]: no such file) and the world. *)
Record State := mkState {
  enabled : bool;
  cache : gmap string CacheEntry;
  disk : option FileData;
  world : World
}.

Definition set_cache (c : gmap string CacheEntry) (s : State) : State :=
  mkState (enabled s) c (disk s) (world s).
Definition set_disk (d : option FileData) (s : State) : State :=
  mkState (enabled s) (cache s) d (world s).
Definition set_world (w : World) (s : State) : State :=
  mkState (enabled s) (cache s) (disk s) w.

(** *** The monad: state, exceptions, event log *)

Definition M (A : Type) : Type := State -> Outcome A * State * list Event.

Definition ret {A} (a : A) : M A := fun s => (Return a, s, []).

Definition bind {A B} (m : M A) (k : A -> M B) : M B := fun s =>
  match m s with
  | (Return a, s1, l1) => let '(r, s2, l2) := k a s1 in (r, s2, l1 ++ l2)
  | (Throw e, s1, l1) => (Throw e, s1, l1)
  end.

Definition throw {A} (e : Error) : M A := fun s => (Throw e, s, []).

(** [try { body } catch (e) { handler e }] *)
Definition try_catch {A} (body : M A) (handler : Error -> M A) : M A := fun s =>
  match body s with
  | (Return a, s1, l1) => (Return a, s1, l1)
  | (Throw e, s1, l1) => let '(r, s2, l2) := handler e s1 in (r, s2, l1 ++ l2)
  end.

Definition emit (e : Event) : M unit := fun s => (Return tt, s, [e]).
Definition gets {A} (f : State -> A) : M A := fun s => (Return (f s), s, []).
Definition modify (f : State -> State) : M unit := fun s => (Return tt, f s, []).

(** One question to the outside world. *)
Definition ask_world {A} (q : World -> A * World) : M A := fun s =>
  let '(a, w) := q (world s) in (Return a, set_world w s, []).

Notation "x ← y ; z" := (bind y (fun x => z))
  (at level 20, y at level 100, z at level 200, only parsing) : method_scope.
Notation "x ;; z" := (bind x (fun _ => z))
  (at level 100, z at level 200, only parsing, right associativity) : method_scope.
Local Open Scope method_scope.

(** *** Calls to the outside *)

(** [await page.locator(selector).first().waitFor({ timeout: 2000 })] *)
Definition waitFor (site : Site) (selector : string) : M unit :=
  ok ← ask_world (fun w => page_waitFor ext w selector wait_timeout);
  emit (EvWaitFor site selector ok);;
  if ok then ret tt else throw (TimeoutError selector).

Definition Date_now : M Z :=
  t ← ask_world (date_now ext);
  emit (EvDateNow t);;
  ret t.

Definition screenshot : M string :=
  r ← ask_world (page_screenshot ext);
  match r with
  | Some image => emit (EvScreenshot true);; ret image
  | None => emit (EvScreenshot false);; throw PageError
  end.

Definition evaluate : M string :=
  r ← ask_world (page_evaluate ext);
  match r with
  | Some structure => emit (EvEvaluate true);; ret structure
  | None => emit (EvEvaluate false);; throw PageError
  end.

Definition askWithImage (req : AskRequest) : M string :=
  r ← ask_world (fun w => ai_askWithImage ext w req);
  emit (EvAskWithImage req r);;
  match r with
  | Some text => ret text
  | None => throw BackendError
  end.

(** *** The cache object *)

(** [this.cache[key]] *)
Definition cache_read (key : string) : M (option CacheEntry) :=
  emit (EvCacheRead key);;
  gets (fun s => cache s !! key).

(** [delete this.cache[key]] *)
Definition cache_delete (key : string) : M unit :=
  emit (EvCacheDelete key);;
  modify (fun s => set_cache (delete key (cache s)) s).

(** [this.cache[key] = entry] *)
Definition cache_set (key : string) (entry : CacheEntry) : M unit :=
  emit (EvCacheSet key entry);;
  modify (fun s => set_cache (<[key := entry]> (cache s)) s).

(** *** Methods *)

Definition loadCache : M unit :=
  try_catch
    (d ← gets disk;
     match d with
     | Some data =>
         ok ← ask_world (fs_attempt ext);
         emit (EvReadFile ok);;
         if ok then
           match data with
           | Json c => modify (set_cache c)
           | Unparseable _ => throw SyntaxError
           end
         else throw FsError
     | None => ret tt
     end)
    (fun _error => modify (set_cache ∅)).

Definition saveCache : M unit :=
  try_catch
    (c ← gets cache;
     ok ← ask_world (fs_attempt ext);
     emit (EvWriteFile c ok);;
     if ok then modify (set_disk (Some (Json c))) else throw FsError)
    (fun _error => ret tt).

(** [new SelfHealingSelector()], given [process.env], the cache file and the
    world: the field initialisers, then the constructor's body. *)
Definition constructor (env : gmap string string) (file : option FileData)
    (w : World) : Outcome unit * State * list Event :=
  loadCache
    (mkState (negb (bool_decide (env !! "ENABLE_SELF_HEALING" = Some "false")))
             ∅ file w).

Definition healSelector (originalSelector : string) (description : option string)
    : M (option string) :=
  emit (EvHealSelector originalSelector);;
  try_catch
    (screenshotBase64 ← screenshot;
     pageStructure ← evaluate;
     let prompt := build_prompt originalSelector description pageStructure in
     response ← askWithImage
       (mkAsk prompt screenshotBase64 "image/png" haiku 1024 system_prompt);
     let selector := clean_response response in
     try_catch
       (waitFor Candidate selector;; ret (Some selector))
       (fun _ => ret None))
    (fun _error => ret None).

(** The block [if (this.cache[selector]) { ... }] of [findElement]:
    [Some l] when the block returns [l] from [findElement], [None] when
    control leaves the block at its end. *)
Definition replay_cached (selector : string) : M (option Locator) :=
  entry ← cache_read selector;
  match entry with
  | Some cached =>
      now ← Date_now;
      let age := now - timestamp cached in
      if age <? cache_ttl then
        try_catch
          (waitFor Cached (healedSelector cached);;
           ret (Some (locator (healedSelector cached))))
          (fun _ => cache_delete selector;; ret None)
      else ret None
  | None => ret None
  end.

Definition findElement (selector : string) (description : option string)
    : M Locator :=
  on ← gets enabled;
  if negb on then ret (locator selector)
  else
    try_catch
      (waitFor Primary selector;; ret (locator selector))
      (fun _error =>
         returned ← replay_cached selector;
         match returned with
         | Some healedLocator => ret healedLocator
         | None =>
             healed ← healSelector selector description;
             match healed with
             | Some healedSelector =>
                 if truthy healed then
                   now ← Date_now;
                   cache_set selector
                     (mkEntry healedSelector now default_confidence);;
                   saveCache;;
                   ret (locator healedSelector)
                 else throw (JsError (failure_message selector))
             | None => throw (JsError (failure_message selector))
             end
         end).

Definition clearCache : M unit :=
  emit EvCacheReset;;
  modify (set_cache ∅);;
  d ← gets disk;
  match d with
  | Some _ =>
      ok ← ask_world (fs_attempt ext);
      emit (EvUnlink ok);;
      if ok then modify (set_disk None) else throw FsError
  | None => ret tt
  end.

End SelfHealingSelector.

Arguments State : clear implicits.
Arguments M : clear implicits.

(** ** The AI client (config/ai-client.ts)

    The Anthropic SDK is an oracle: [messages.create] answers a request
    with the content blocks of a message, or rejects.  A JavaScript number
    is an integer or NaN ([None]); [parseInt] is exact, which the real one
    is up to 2^53. *)

Definition modelMap (m : AIModel) : string :=
  match m with
  | haiku => "claude-3-haiku-20240307"
  | sonnet => "claude-sonnet-4-5-20250929"
  | opus => "claude-opus-4-5-20251101"
  end.

(** The fields [defaultModel] and [defaultMaxTokens]. *)
Record AIClient := mkClient {
  defaultModel : string;
  defaultMaxTokens : option Z
}.

Record AIClientOptions := mkOptions {
  opt_model : option AIModel;
  opt_maxTokens : option Z
}.

Inductive ContentPart :=
| ImagePart (media_type data : string)
| TextPart (text : string).

(** [content] of the user message: the prompt itself, or an array of parts. *)
Inductive MessageContent :=
| PlainContent (text : string)
| PartsContent (parts : list ContentPart).

Record CreateParams := mkParams {
  param_model : string;
  param_max_tokens : option Z;
  param_system : option string;
  param_content : MessageContent
}.

(** One block of the answer: its [type] and its [text]. *)
Record ContentBlock := mkBlock {
  block_type : string;
  block_text : string
}.

Inductive ClientError :=
| ApiError
| TypeError
| UnexpectedResponse (message : string)
| MissingKey (message : string).

Definition is_digit (c : ascii) : bool :=
  let n := nat_of_ascii c in (48 <=? n)%nat && (n <=? 57)%nat.

Definition digit_value (c : ascii) : Z := Z.of_nat (nat_of_ascii c) - 48.

(** The value of the longest prefix of digits, after [acc]. *)
Fixpoint digits_value (acc : Z) (s : string) : Z :=
  match s with
  | String c s' =>
      if is_digit c then digits_value (10 * acc + digit_value c) s' else acc
  | EmptyString => acc
  end.

Definition starts_with_digit (s : string) : bool :=
  match s with
  | String c _ => is_digit c
  | EmptyString => false
  end.

(** [parseInt(s, 10)]: leading white space, a sign, digits; NaN without
    digits. *)
Definition parseInt10 (s : string) : option Z :=
  let s1 := trimStart s in
  let '(negative, s2) :=
    match s1 with
    | String c rest =>
        if bool_decide (c = ascii_of_nat 45) then (true, rest)
        else if bool_decide (c = ascii_of_nat 43) then (false, rest)
        else (false, s1)
    | EmptyString => (false, s1)
    end in
  if starts_with_digit s2
  then Some (if negative then - digits_value 0 s2 else digits_value 0 s2)
  else None.

(** [new AIClient()] given [process.env]. *)
Definition AIClient_constructor (env : gmap string string)
    : ClientError + AIClient :=
  if truthy (env !! "ANTHROPIC_API_KEY") then
    inr (mkClient (modelMap opus)
           (parseInt10 (if truthy (env !! "AI_MAX_TOKENS")
                        then default "" (env !! "AI_MAX_TOKENS")
                        else "4096")))
  else inl (MissingKey "ANTHROPIC_API_KEY is not set in environment variables").

Definition getModelId (client : AIClient) (model : option AIModel) : string :=
  match model with
  | None => defaultModel client
  | Some m =>
      if truthy (Some (modelMap m)) then modelMap m else defaultModel client
  end.

(** [options?.maxTokens || this.defaultMaxTokens] *)
Definition pick_maxTokens (client : AIClient) (options : option AIClientOptions)
    : option Z :=
  match options with
  | Some o =>
      match opt_maxTokens o with
      | Some n => if bool_decide (n = 0) then defaultMaxTokens client else Some n
      | None => defaultMaxTokens client
      end
  | None => defaultMaxTokens client
  end.

(** [message.content[0]], then its text when its type is 'text'. *)
Definition first_text (content : list ContentBlock) : ClientError + string :=
  match content with
  | [] => inl TypeError
  | block :: _ =>
      if bool_decide (block_type block = "text") then inr (block_text block)
      else inl (UnexpectedResponse "Unexpected response type from AI")
  end.

Section AIClient.

Context {World : Type}.
Variable sdk : World -> CreateParams -> option (list ContentBlock) * World.

(** The body shared by [ask] and [askWithImage]: one request, and the
    catch block rethrows whatever was thrown. *)
Definition create_text (params : CreateParams) (w : World)
    : (ClientError + string) * World :=
  let '(answer, w') := sdk w params in
  (match answer with
   | Some content => first_text content
   | None => inl ApiError
   end, w').

Definition client_ask (client : AIClient) (prompt : string)
    (systemPrompt : option string) (options : option AIClientOptions)
    (w : World) : (ClientError + string) * World :=
  let modelId := getModelId client (options ≫= opt_model) in
  let maxTokens := pick_maxTokens client options in
  create_text (mkParams modelId maxTokens systemPrompt (PlainContent prompt)) w.

Definition client_askWithImage (client : AIClient) (prompt imageBase64 : string)
    (mediaType : option string) (options : option AIClientOptions)
    (systemPrompt : option string) (w : World)
    : (ClientError + string) * World :=
  let modelId := getModelId client (options ≫= opt_model) in
  let maxTokens := pick_maxTokens client options in
  create_text
    (mkParams modelId maxTokens systemPrompt
       (PartsContent [ImagePart (default "image/png" mediaType) imageBase64;
                      TextPart prompt])) w.

(** The request that [healSelector]'s call of [askWithImage] sends. *)
Definition repair_params (client : AIClient) (req : AskRequest) : CreateParams :=
  mkParams
    (getModelId client (Some (ask_model req)))
    (pick_maxTokens client
       (Some (mkOptions (Some (ask_model req)) (Some (ask_maxTokens req)))))
    (Some (ask_systemPrompt req))
    (PartsContent [ImagePart (ask_mediaType req) (ask_imageBase64 req);
                   TextPart (ask_prompt req)]).

(** The outside world of the class when its backend is this client. *)
Definition with_client (base : Externals World) (client : AIClient)
    : Externals World :=
  mkExternals World
    (page_waitFor base) (date_now base)
    (page_screenshot base) (page_evaluate base)
    (fun w req =>
       let '(r, w') :=
         client_askWithImage client (ask_prompt req) (ask_imageBase64 req)
           (Some (ask_mediaType req))
           (Some (mkOptions (Some (ask_model req)) (Some (ask_maxTokens req))))
           (Some (ask_systemPrompt req)) w in
       (match r with inr text => Some text | inl _ => None end, w'))
    (fs_attempt base).

End AIClient.

(** ** Pulling JSON or code out of a reply

    [extractJSON] is a method of both [AIAssertion] and [TestMaintainer],
    with the same body; [extractCodeFromMarkdown] is [TestMaintainer]'s.
    Their regular expressions are followed step by step.  A match of
    [/```(?:json)?\s*\n?([\s\S]*?)\n?```/] starts at the first run of three
    backticks, if any: the optional label and [\s*] take what they can (no
    backtick is a letter or white space, so they never have to give
    anything back), [\n?] then finds nothing left to take, and the lazy
    group stops at the first place where a fence, or a line feed and a
    fence, follows. When no fence follows there is no match at all, also
    not from a later start. *)

(** [s] without the prefix [p], when it has it. *)
Fixpoint strip_prefix (p s : string) : option string :=
  match p with
  | EmptyString => Some s
  | String a p' =>
      match s with
      | String b s' => if bool_decide (a = b) then strip_prefix p' s' else None
      | EmptyString => None
      end
  end.

(** What is before and what is after the first occurrence of [needle]. *)
Fixpoint split_first (needle s : string) : option (string * string) :=
  match strip_prefix needle s with
  | Some rest => Some (EmptyString, rest)
  | None =>
      match s with
      | String c s' =>
          match split_first needle s' with
          | Some (before, after) => Some (String c before, after)
          | None => None
          end
      | EmptyString => None
      end
  end.

Definition fence : string := "```".

(** [(?:l1|l2|...)?]: the first label that is there is taken. *)
Fixpoint drop_label (labels : list string) (s : string) : string :=
  match labels with
  | [] => s
  | l :: ls =>
      match strip_prefix l s with
      | Some rest => rest
      | None => drop_label ls s
      end
  end.

(** [\n?] at the end of the lazy group: one line feed less. *)
Definition drop_last_newline (s : string) : string :=
  match String.rev s with
  | String c r => if bool_decide (c = ascii_of_nat 10) then String.rev r else s
  | EmptyString => s
  end.

(** Group 1 of the match of the fence expression, [None] without a match. *)
Definition fenced_capture (labels : list string) (text : string) : option string :=
  match split_first fence text with
  | Some (_, opened) =>
      match split_first fence (trimStart (drop_label labels opened)) with
      | Some (inside, _) => Some (drop_last_newline inside)
      | None => None
      end
  | None => None
  end.

(** The match of [/\{[\s\S]*\}/]: from the first opening brace to the last
    closing brace after it. *)
Definition braces (text : string) : option string :=
  match split_first "{" text with
  | Some (_, opened) =>
      match split_first "}" (String.rev opened) with
      | Some (_, inside_reversed) =>
          Some ("{" +:+ String.rev inside_reversed +:+ "}")
      | None => None
      end
  | None => None
  end.

Definition extractJSON (text : string) : string :=
  match fenced_capture ["json"] text with
  | Some captured => trim captured
  | None =>
      match braces text with
      | Some found => found
      | None => trim text
      end
  end.

Definition extractCodeFromMarkdown (text : string) : string :=
  match fenced_capture ["typescript"; "ts"] text with
  | Some captured => trim captured
  | None => trim text
  end.

Definition backtick : ascii := ascii_of_nat 96.

(** No character of [s] is a backtick. *)
Fixpoint no_backtick (s : string) : bool :=
  match s with
  | String c s' => negb (bool_decide (c = ascii_of_nat 96)) && no_backtick s'
  | EmptyString => true
  end.

(** No character of [s] is [c]. *)
Fixpoint lacks (c : ascii) (s : string) : bool :=
  match s with
  | String d s' => negb (bool_decide (d = c)) && lacks c s'
  | EmptyString => true
  end.

(** ** AI assertions (utils/ai-helpers/ai-assertions.ts)

    [expectVisualState], [expectSemanticContent], [expectLayout] and
    [parseAIResponse].  [JSON.parse] and the conversion of a value to a
    string in a template literal are parameters.  [expectAccessible] and
    [expectDataValid], which go through arrays of the parsed value, are
    not modelled. *)

Inductive JsNum :=
| Finite (q : Q)
| Infinity (negative : bool).

(** A value as [JSON.parse] gives it, or undefined. *)
#[local] Unset Elimination Schemes.
Inductive JsValue :=
| JUndefined
| JNull
| JBool (b : bool)
| JNumber (n : JsNum)
| JString (s : string)
| JArray (items : list JsValue)
| JObject (fields : list (string * JsValue)).
#[local] Set Elimination Schemes.

Definition js_truthy (v : JsValue) : bool :=
  match v with
  | JUndefined | JNull => false
  | JBool b => b
  | JNumber (Finite q) => negb (Qeq_bool q 0)
  | JNumber (Infinity _) => true
  | JString s => negb (bool_decide (s = ""))
  | JArray _ | JObject _ => true
  end.

(** [a || b] *)
Definition js_or (a b : JsValue) : JsValue := if js_truthy a then a else b.

Fixpoint field (key : string) (fields : list (string * JsValue)) : JsValue :=
  match fields with
  | [] => JUndefined
  | (k, v) :: rest => if bool_decide (k = key) then v else field key rest
  end.

(** [v.key] for the keys that [parseAIResponse] reads, none of which a
    prototype defines: [None] is the TypeError on null. *)
Definition get_property (v : JsValue) (key : string) : option JsValue :=
  match v with
  | JUndefined | JNull => None
  | JObject fields => Some (field key fields)
  | JBool _ | JNumber _ | JString _ | JArray _ => Some JUndefined
  end.

Record Verdict := mkVerdict {
  v_matches : JsValue;
  v_confidence : JsValue;
  v_explanation : JsValue
}.

(** Why [parseAIResponse] throws its [Error]: [JSON.parse] threw, or the
    parsed value was null. *)
Inductive ParseCause := InvalidJSON | NullValue.

Inductive AssertError :=
| PageRejected
| BackendRejected
| FailedToParse (cause : ParseCause)
| NoTextFound (message : string)
| AssertionFailed (message : string).

(** The arguments of [aiClient.ask]. *)
Record AskTextRequest := mkAskText {
  askt_prompt : string;
  askt_systemPrompt : option string;
  askt_model : AIModel;
  askt_maxTokens : Z
}.

Inductive AssertEvent :=
| AvScreenshot (fullPage : bool) (ok : bool)
| AvTextContent (selector : string) (text : option (option string))
| AvAskWithImage (req : AskRequest) (reply : option string)
| AvAsk (req : AskTextRequest) (reply : option string).

Record AssertExternals (World : Type) := mkAssertExternals {
  (* (await page.screenshot({ fullPage })).toString('base64') *)
  ax_screenshot : World -> bool -> option string * World;
  (* await page.locator(selector).textContent(): rejects, null or a string *)
  ax_textContent : World -> string -> option (option string) * World;
  ax_askWithImage : World -> AskRequest -> option string * World;
  ax_ask : World -> AskTextRequest -> option string * World
}.
Arguments ax_screenshot {World} _ _ _.
Arguments ax_textContent {World} _ _ _.
Arguments ax_askWithImage {World} _ _ _.
Arguments ax_ask {World} _ _ _.

Definition visual_prompt (description : string) : string :=
  nl +:+ "Analyze this screenshot and determine if it matches this description:" +:+ nl
  +:+ dq +:+ description +:+ dq +:+ nl
  +:+ nl
  +:+ "Respond with a JSON object in this exact format:" +:+ nl
  +:+ "{" +:+ nl
  +:+ "  " +:+ dq +:+ "matches" +:+ dq +:+ ": true or false," +:+ nl
  +:+ "  " +:+ dq +:+ "confidence" +:+ dq +:+ ": 0.0 to 1.0," +:+ nl
  +:+ "  " +:+ dq +:+ "explanation" +:+ dq +:+ ": " +:+ dq
  +:+ "brief explanation of what you see and why it matches or doesn't match"
  +:+ dq +:+ nl
  +:+ "}" +:+ nl
  +:+ nl
  +:+ "Be strict but reasonable in your assessment." +:+ nl.

Definition visual_system_prompt : string :=
  "You are a QA visual validation expert. Analyze screenshots carefully and provide accurate assessments." +:+ nl
  +:+ "Always respond with valid JSON only." +:+ nl
  +:+ "IMPORTANT: Provide all explanations and messages in English only.".

Definition semantic_prompt (expectedMeaning actualText : string) : string :=
  nl +:+ "Compare these two pieces of text semantically:" +:+ nl
  +:+ nl
  +:+ "Expected meaning: " +:+ dq +:+ expectedMeaning +:+ dq +:+ nl
  +:+ "Actual text: " +:+ dq +:+ actualText +:+ dq +:+ nl
  +:+ nl
  +:+ "Do they convey the same meaning? Consider synonyms, paraphrasing, and context." +:+ nl
  +:+ nl
  +:+ "Respond with JSON:" +:+ nl
  +:+ "{" +:+ nl
  +:+ "  " +:+ dq +:+ "matches" +:+ dq +:+ ": true or false," +:+ nl
  +:+ "  " +:+ dq +:+ "confidence" +:+ dq +:+ ": 0.0 to 1.0," +:+ nl
  +:+ "  " +:+ dq +:+ "explanation" +:+ dq +:+ ": " +:+ dq +:+ "brief explanation" +:+ dq +:+ nl
  +:+ "}" +:+ nl.

Definition layout_prompt (description : string) : string :=
  nl +:+ "Analyze the layout of this page and verify if it matches this description:" +:+ nl
  +:+ dq +:+ description +:+ dq +:+ nl
  +:+ nl
  +:+ "Focus on:" +:+ nl
  +:+ "- Element positioning and alignment" +:+ nl
  +:+ "- Visual hierarchy" +:+ nl
  +:+ "- Spacing and margins" +:+ nl
  +:+ "- Responsive design aspects" +:+ nl
  +:+ "- Overall composition" +:+ nl
  +:+ nl
  +:+ "Respond with JSON:" +:+ nl
  +:+ "{" +:+ nl
  +:+ "  " +:+ dq +:+ "matches" +:+ dq +:+ ": true or false," +:+ nl
  +:+ "  " +:+ dq +:+ "confidence" +:+ dq +:+ ": 0.0 to 1.0," +:+ nl
  +:+ "  " +:+ dq +:+ "explanation" +:+ dq +:+ ": " +:+ dq
  +:+ "what you observed about the layout" +:+ dq +:+ nl
  +:+ "}" +:+ nl.

Definition layout_system_prompt : string :=
  "You are a QA visual layout expert. Analyze page layouts carefully." +:+ nl
  +:+ "IMPORTANT: Provide all explanations and observations in English only.".

(** [new AIAssertion()]: the field [enabled]. *)
Definition AIAssertion_constructor (env : gmap string string) : bool :=
  negb (bool_decide (env !! "ENABLE_AI_ASSERTIONS" = Some "false")).

Section AIAssertion.

Context {World : Type} (ax : AssertExternals World).
(* JSON.parse: None when it throws *)
Variable JSON_parse : string -> option JsValue.
(* `${value}` *)
Variable display : JsValue -> string.

Definition parseAIResponse (response : string) : ParseCause + Verdict :=
  match JSON_parse (extractJSON response) with
  | None => inl InvalidJSON
  | Some parsed =>
      match get_property parsed "matches", get_property parsed "accessible",
            get_property parsed "valid", get_property parsed "confidence",
            get_property parsed "explanation" with
      | Some matches, Some accessible, Some valid, Some confidence,
        Some explanation =>
          inr (mkVerdict
                 (js_or matches (js_or accessible (js_or valid (JBool false))))
                 (js_or confidence (JNumber (Finite (1 # 2))))
                 (js_or explanation (JString "No explanation provided")))
      | _, _, _, _, _ => inl NullValue
      end
  end.

Definition visual_failure (description : string) (result : Verdict) : string :=
  "Visual assertion failed: " +:+ description +:+ nl
  +:+ "Confidence: " +:+ display (v_confidence result) +:+ nl
  +:+ "Explanation: " +:+ display (v_explanation result).

Definition semantic_failure (expectedMeaning actualText : string)
    (result : Verdict) : string :=
  "Semantic assertion failed." +:+ nl
  +:+ "Expected meaning: " +:+ expectedMeaning +:+ nl
  +:+ "Actual text: " +:+ actualText +:+ nl
  +:+ "Confidence: " +:+ display (v_confidence result) +:+ nl
  +:+ "Explanation: " +:+ display (v_explanation result).

Definition layout_failure (description : string) (result : Verdict) : string :=
  "Layout assertion failed: " +:+ description +:+ nl
  +:+ "Confidence: " +:+ display (v_confidence result) +:+ nl
  +:+ "Explanation: " +:+ display (v_explanation result).

Definition expectVisualState (enabled : bool) (description : string) (w : World)
    : (AssertError + unit) * World * list AssertEvent :=
  if negb enabled then (inr tt, w, [])
  else
    let '(shot, w1) := ax_screenshot ax w false in
    match shot with
    | None => (inl PageRejected, w1, [AvScreenshot false false])
    | Some screenshotBase64 =>
        let req := mkAsk (visual_prompt description) screenshotBase64
                         "image/png" sonnet 2048 visual_system_prompt in
        let '(reply, w2) := ax_askWithImage ax w1 req in
        (match reply with
         | None => inl BackendRejected
         | Some response =>
             match parseAIResponse response with
             | inl cause => inl (FailedToParse cause)
             | inr result =>
                 if js_truthy (v_matches result) then inr tt
                 else inl (AssertionFailed (visual_failure description result))
             end
         end, w2, [AvScreenshot false true; AvAskWithImage req reply])
    end.

Definition expectSemanticContent (enabled : bool)
    (selector expectedMeaning : string) (w : World)
    : (AssertError + unit) * World * list AssertEvent :=
  if negb enabled then (inr tt, w, [])
  else
    let '(text, w1) := ax_textContent ax w selector in
    match text with
    | None => (inl PageRejected, w1, [AvTextContent selector text])
    | Some actual =>
        if truthy actual then
          let actualText := default "" actual in
          let req := mkAskText (semantic_prompt expectedMeaning actualText)
                               None haiku 512 in
          let '(reply, w2) := ax_ask ax w1 req in
          (match reply with
           | None => inl BackendRejected
           | Some response =>
               match parseAIResponse response with
               | inl cause => inl (FailedToParse cause)
               | inr result =>
                   if js_truthy (v_matches result) then inr tt
                   else inl (AssertionFailed
                               (semantic_failure expectedMeaning actualText result))
               end
           end, w2, [AvTextContent selector text; AvAsk req reply])
        else
          (inl (NoTextFound ("No text found at selector: " +:+ selector)), w1,
           [AvTextContent selector text])
    end.

Definition expectLayout (enabled : bool) (description : string) (w : World)
    : (AssertError + unit) * World * list AssertEvent :=
  if negb enabled then (inr tt, w, [])
  else
    let '(shot, w1) := ax_screenshot ax w true in
    match shot with
    | None => (inl PageRejected, w1, [AvScreenshot true false])
    | Some screenshotBase64 =>
        let req := mkAsk (layout_prompt description) screenshotBase64
                         "image/png" sonnet 2048 layout_system_prompt in
        let '(reply, w2) := ax_askWithImage ax w1 req in
        (match reply with
         | None => inl BackendRejected
         | Some response =>
             match parseAIResponse response with
             | inl cause => inl (FailedToParse cause)
             | inr result =>
                 if js_truthy (v_matches result) then inr tt
                 else inl (AssertionFailed (layout_failure description result))
             end
         end, w2, [AvScreenshot true true; AvAskWithImage req reply])
    end.

End AIAssertion.

(** ** A scripted world

    A page on which a fixed list of selectors resolves, a clock that stands
    still, a backend with one fixed answer and a file system that either
    works or does not.  It is used to run the methods on concrete inputs. *)

Record Scene := mkScene {
  live : list string;
  clock : Z;
  capture : option string;
  inventory : option string;
  backend : option string;
  fs_ok : bool
}.

Definition scene : Externals Scene := {|
  page_waitFor w selector _ := (bool_decide (selector ∈ live w), w);
  date_now w := (clock w, w);
  page_screenshot w := (capture w, w);
  page_evaluate w := (inventory w, w);
  ai_askWithImage w _ := (backend w, w);
  fs_attempt w := (fs_ok w, w)
|}.

(** The page was redesigned: [#submit] is gone, [#submit-v2] is there, and
    the backend proposes it (quoted, with white space around). *)
Definition redesigned : Scene :=
  mkScene ["#submit-v2"] 7200000 (Some "aW1n") (Some "[]")
          (Some " '#submit-v2' ") true.

(** Nothing resolves; the backend answers with [answer]. *)
Definition blank (answer : option string) : Scene :=
  mkScene [] 7200000 (Some "aW1n") (Some "[]") answer true.

(** The original page, where [#submit] resolves. *)
Definition original : Scene :=
  mkScene ["#submit"] 7200000 (Some "aW1n") (Some "[]") None true.

(** An entry for [#submit] healed to [#send] at time [t]. *)
Definition healed_at (t : Z) : gmap string CacheEntry :=
  {[ "#submit" := mkEntry "#send" t default_confidence ]}.

Definition fresh (on : bool) (w : Scene) : State Scene := mkState on ∅ None w.

Definition with_cache (c : gmap string CacheEntry) (w : Scene) : State Scene :=
  mkState true c (Some (Json c)) w.

(** The page after an earlier repair: [#submit] is gone and [#send], the
    healed selector, resolves. *)
Definition healed_page : Scene :=
  mkScene ["#send"] 7200000 (Some "aW1n") (Some "[]") None true.

(** The redesigned page with a file system that refuses every operation. *)
Definition read_only : Scene :=
  mkScene ["#submit-v2"] 7200000 (Some "aW1n") (Some "[]")
          (Some "#submit-v2") false.

(** A page on which even the empty selector resolves, and a backend that
    answers with a pair of quotes. *)
Definition permissive : Scene :=
  mkScene [""] 7200000 (Some "aW1n") (Some "[]") (Some "''") true.

(** An SDK that answers with the scene's backend text in a first text
    block, followed by a second block; and one that answers with a block
    that is no text. *)
Definition text_sdk (w : Scene) (_ : CreateParams)
    : option (list ContentBlock) * Scene :=
  ((fun t => [mkBlock "text" t; mkBlock "text" "more"]) <$> backend w, w).

Definition tool_sdk (w : Scene) (_ : CreateParams)
    : option (list ContentBlock) * Scene :=
  (Some [mkBlock "tool_use" ""], w).

(** The page, the backend and a parser for the examples of the
    assertions: every selector that resolves has the text "Sign in"; the
    parser knows three texts. *)
Definition scene_assert : AssertExternals Scene := {|
  ax_screenshot w _ := (capture w, w);
  ax_textContent w selector :=
    (Some (if bool_decide (selector ∈ live w) then Some "Sign in" else None), w);
  ax_askWithImage w _ := (backend w, w);
  ax_ask w _ := (backend w, w)
|}.

Definition valid_only : string :=
  "{" +:+ dq +:+ "matches" +:+ dq +:+ ": false, "
  +:+ dq +:+ "valid" +:+ dq +:+ ": true, "
  +:+ dq +:+ "confidence" +:+ dq +:+ ": 0}".

Definition no_match : string :=
  "{" +:+ dq +:+ "matches" +:+ dq +:+ ": false}".

Definition sample_parse (text : string) : option JsValue :=
  if bool_decide (text = valid_only) then
    Some (JObject [("matches", JBool false); ("valid", JBool true);
                   ("confidence", JNumber (Finite 0))])
  else if bool_decide (text = no_match) then
    Some (JObject [("matches", JBool false)])
  else if bool_decide (text = "null") then Some JNull
  else None.

Definition sample_display (v : JsValue) : string :=
  match v with
  | JString s => s
  | JNumber (Finite q) => if Qeq_bool q (1 # 2) then "0.5" else "?"
  | _ => "?"
  end.

(** ** Reading an event log *)

Definition is_repair (e : Event) : bool :=
  match e with EvHealSelector _ => true | _ => false end.

Definition is_ai_call (e : Event) : bool :=
  match e with EvAskWithImage _ _ => true | _ => false end.

Definition touches_cache (e : Event) : bool :=
  match e with
  | EvCacheRead _ | EvCacheDelete _ | EvCacheSet _ _ | EvCacheReset => true
  | _ => false
  end.

Definition touches_file (e : Event) : bool :=
  match e with
  | EvReadFile _ | EvWriteFile _ _ | EvUnlink _ => true
  | _ => false
  end.

Definition is_replay (e : Event) : bool :=
  match e with EvWaitFor Cached _ _ => true | _ => false end.

Definition is_store (e : Event) : bool :=
  match e with EvCacheSet _ _ => true | _ => false end.

Definition is_write (e : Event) : bool :=
  match e with EvWriteFile _ _ => true | _ => false end.

(** The events [healSelector] produces after its first one. *)
Definition inside_repair (e : Event) : bool :=
  match e with
  | EvScreenshot _ | EvEvaluate _ | EvAskWithImage _ _
  | EvWaitFor Candidate _ _ => true
  | _ => false
  end.

Definition count_events (p : Event -> bool) (l : list Event) : nat :=
  List.length (List.filter p l).

(** What a later [loadCache] would make of the cache file, the file system
    permitting. *)
Definition persisted (d : option FileData) : gmap string CacheEntry :=
  match d with
  | Some (Json c) => c
  | Some (Unparseable _) => ∅
  | None => ∅
  end.

(** The cache file holds exactly the in-memory map. *)
Definition in_sync {World : Type} (s : State World) : Prop :=
  disk s = Some (Json (cache s)).

(** Going over a log again from the world [w]: every answer the log
    records is put to the outside party it came from, at the world reached
    so far.  The result is the world after the last event, or [None] when
    some recorded answer is not the one the outside gives there.  Events
    on the cache object ask nothing of the outside. *)
Fixpoint retrace {World : Type} (ext : Externals World) (w : World)
    (evs : list Event) : option World :=
  match evs with
  | [] => Some w
  | EvWaitFor _ selector resolved :: rest =>
      let '(ok, w') := page_waitFor ext w selector wait_timeout in
      if bool_decide (ok = resolved) then retrace ext w' rest else None
  | EvDateNow t :: rest =>
      let '(now, w') := date_now ext w in
      if bool_decide (now = t) then retrace ext w' rest else None
  | EvScreenshot ok :: rest =>
      let '(r, w') := page_screenshot ext w in
      if bool_decide (bool_decide (is_Some r) = ok) then retrace ext w' rest
      else None
  | EvEvaluate ok :: rest =>
      let '(r, w') := page_evaluate ext w in
      if bool_decide (bool_decide (is_Some r) = ok) then retrace ext w' rest
      else None
  | EvAskWithImage req reply :: rest =>
      let '(r, w') := ai_askWithImage ext w req in
      if bool_decide (r = reply) then retrace ext w' rest else None
  | (EvReadFile ok | EvWriteFile _ ok | EvUnlink ok) :: rest =>
      let '(done, w') := fs_attempt ext w in
      if bool_decide (done = ok) then retrace ext w' rest else None
  | (EvCacheRead _ | EvCacheDelete _ | EvCacheSet _ _ | EvCacheReset
     | EvHealSelector _) :: rest => retrace ext w rest
  end.

(** Within the log [evs] of a call that started in the world [w], the
    page was asked for [z] at [site] and [z] resolved: the log has the
    successful wait, and at the world the call had reached by then the
    page does answer that [z] resolves within the wait. *)
Definition resolved_in {World : Type} (ext : Externals World) (w : World)
    (evs : list Event) (site : Site) (z : string) : Prop :=
  exists pre post w1 w2,
    evs = pre ++ EvWaitFor site z true :: post
    /\ retrace ext w pre = Some w1
    /\ page_waitFor ext w1 z wait_timeout = (true, w2).

(** ** The ways a call can go *)

Section Paths.

Context {World : Type} (ext : Externals World).
Implicit Types (s : State World) (w : World) (selector : string).

(** The state and the events after [this.cache[selector] = {...}] and
    [this.saveCache()], for a healed selector [z], from state [s]. *)
Definition stored selector (z : string) s : State World * list Event :=
  let '(t, w1) := date_now ext (world s) in
  let entry := mkEntry z t default_confidence in
  let c := <[selector := entry]> (cache s) in
  let '(ok, w2) := fs_attempt ext w1 in
  (mkState (enabled s) c (if ok then Some (Json c) else disk s) w2,
   [EvDateNow t; EvCacheSet selector entry; EvWriteFile c ok]).

(** How the block [if (this.cache[selector]) { ... }] can be left at its
    end: the events it produced and the cache it leaves. *)
Inductive Miss s selector : list Event -> gmap string CacheEntry -> Prop :=
| miss_absent :
    cache s !! selector = None ->
    Miss s selector [EvCacheRead selector] (cache s)
| miss_expired cached t :
    cache s !! selector = Some cached ->
    cache_ttl <= t - timestamp cached ->
    Miss s selector [EvCacheRead selector; EvDateNow t] (cache s)
| miss_stale cached t :
    cache s !! selector = Some cached ->
    t - timestamp cached < cache_ttl ->
    Miss s selector
      [EvCacheRead selector; EvDateNow t;
       EvWaitFor Cached (healedSelector cached) false; EvCacheDelete selector]
      (delete selector (cache s)).

(** The five ways a call of [findElement] can go. *)
Inductive Run s selector : Outcome Locator -> State World -> list Event -> Prop :=
| run_disabled :
    enabled s = false ->
    Run s selector (Return (locator selector)) s []
| run_primary w :
    enabled s = true ->
    Run s selector (Return (locator selector)) (set_world w s)
      [EvWaitFor Primary selector true]
| run_cached cached t w :
    enabled s = true ->
    cache s !! selector = Some cached ->
    t - timestamp cached < cache_ttl ->
    Run s selector (Return (locator (healedSelector cached))) (set_world w s)
      [EvWaitFor Primary selector false; EvCacheRead selector; EvDateNow t;
       EvWaitFor Cached (healedSelector cached) true]
| run_healed pre c tail z t (ok : bool) w :
    enabled s = true ->
    Miss s selector pre c ->
    Forall (fun e => inside_repair e = true) tail ->
    In (EvWaitFor Candidate z true) tail ->
    (forall req, ~ In (EvAskWithImage req None) tail) ->
    (count_events is_ai_call tail <= 1)%nat ->
    z <> "" ->
    let entry := mkEntry z t default_confidence in
    Run s selector (Return (locator z))
      (mkState true (<[selector := entry]> c)
         (if ok then Some (Json (<[selector := entry]> c)) else disk s) w)
      (EvWaitFor Primary selector false :: pre ++ EvHealSelector selector :: tail
         ++ [EvDateNow t; EvCacheSet selector entry;
             EvWriteFile (<[selector := entry]> c) ok])
| run_failed pre c tail w :
    enabled s = true ->
    Miss s selector pre c ->
    Forall (fun e => inside_repair e = true) tail ->
    (count_events is_ai_call tail <= 1)%nat ->
    Run s selector (Throw (JsError (failure_message selector)))
      (mkState true c (disk s) w)
      (EvWaitFor Primary selector false :: pre ++ EvHealSelector selector :: tail).

End Paths.

(** ** The ways a repair can go *)

(** What [healSelector] returns, with the events it produces: the page or
    the backend lets it down, or the backend's reply, cleaned, is waited
    for and resolves or does not. *)
Inductive Repair (selector : string) (description : option string)
    : option string -> list Event -> Prop :=
| repair_no_screenshot :
    Repair selector description None
      [EvHealSelector selector; EvScreenshot false]
| repair_no_inventory :
    Repair selector description None
      [EvHealSelector selector; EvScreenshot true; EvEvaluate false]
| repair_no_reply image structure :
    Repair selector description None
      [EvHealSelector selector; EvScreenshot true; EvEvaluate true;
       EvAskWithImage
         (mkAsk (build_prompt selector description structure) image
                "image/png" haiku 1024 system_prompt) None]
| repair_replied image structure reply (resolved : bool) :
    Repair selector description
      (if resolved then Some (clean_response reply) else None)
      [EvHealSelector selector; EvScreenshot true; EvEvaluate true;
       EvAskWithImage
         (mkAsk (build_prompt selector description structure) image
                "image/png" haiku 1024 system_prompt) (Some reply);
       EvWaitFor Candidate (clean_response reply) resolved].

(** Every character is white space. *)
Fixpoint all_spaces (s : string) : bool :=
  match s with
  | String c s' => is_js_space c && all_spaces s'
  | EmptyString => true
  end.

(** The first character, if any, is neither white space nor a quote. *)
Definition plain_front (s : string) : bool :=
  match s with
  | String c _ => negb (is_js_space c) && negb (is_quote c)
  | EmptyString => true
  end.

(** ** Cleaning the backend's answer *)

Example clean_response_single_quotes :
  clean_response " '#submit-v2' " = "#submit-v2".
Proof. reflexivity. Qed.

Example clean_response_double_quotes :
  clean_response (nl +:+ dq +:+ "button >> nth=0" +:+ dq +:+ nl)
  = "button >> nth=0".
Proof. reflexivity. Qed.

Example clean_response_lone_quote : clean_response dq = "".
Proof. reflexivity. Qed.

Example clean_response_inner_quote :
  clean_response "a:has-text('x')" = "a:has-text('x')".
Proof. reflexivity. Qed.

Example clean_response_blank : truthy (Some (clean_response "   ")) = false.
Proof. reflexivity. Qed.

(** ** Lists and counts *)

Lemma count_events_app p l1 l2 :
  count_events p (l1 ++ l2) = (count_events p l1 + count_events p l2)%nat.
Proof. unfold count_events. now rewrite List.filter_app, List.length_app. Qed.

Lemma count_events_none p l :
  Forall (fun e => p e = false) l -> count_events p l = 0%nat.
Proof.
  unfold count_events. induction 1 as [|e l He _ IH]; simpl; [reflexivity|].
  now rewrite He.
Qed.

Lemma split_unique {A} (p : A -> bool) (l1 l2 l1' l2' : list A) x x' :
  l1 ++ x :: l2 = l1' ++ x' :: l2' ->
  Forall (fun e => p e = false) l1 ->
  Forall (fun e => p e = false) l2 ->
  p x' = true ->
  l1 = l1' /\ x = x' /\ l2 = l2'.
Proof.
  revert l1'. induction l1 as [|a l1 IH]; intros l1' Heq H1 H2 Hx'.
  - destruct l1' as [|b l1']; cbn in Heq.
    + now injection Heq as -> ->.
    + injection Heq as -> ->. rewrite Forall_forall in H2.
      assert (Hin : x' ∈ l1' ++ x' :: l2') by (apply elem_of_app; right; left).
      apply H2 in Hin. congruence.
  - destruct l1' as [|b l1']; cbn in Heq.
    + injection Heq as -> _. apply Forall_cons in H1 as [Ha _]. congruence.
    + injection Heq as -> Heq. apply Forall_cons in H1 as [_ H1].
      destruct (IH l1' Heq H1 H2 Hx') as (-> & -> & ->). done.
Qed.

Lemma not_in_split {A} (p : A -> bool) (l pre post : list A) x :
  Forall (fun e => p e = false) l -> p x = true -> l <> pre ++ x :: post.
Proof.
  intros Hall Hx ->. rewrite Forall_forall in Hall.
  assert (Hin : x ∈ pre ++ x :: post) by (apply elem_of_app; right; left).
  apply Hall in Hin. congruence.
Qed.

(** ** How each method runs *)

Section Runs.

Context {World : Type} (ext : Externals World).
Implicit Types (s : State World) (w : World) (selector : string).

Local Arguments build_prompt : simpl never.
Local Arguments system_prompt : simpl never.
Local Arguments clean_response : simpl never.
Local Arguments failure_message : simpl never.

Ltac unfold_monad :=
  unfold bind, try_catch, ask_world, emit, gets, modify, ret, throw.

Ltac heal_log :=
  split; [repeat constructor|split; [|split]];
  [ intros ? ?; simplify_eq; cbn; tauto
  | intros ? ?; first [reflexivity | cbn in *; intuition discriminate]
  | cbn; lia ].

Ltac tidy :=
  cbn; unfold ret, throw; cbn;
  rewrite ?app_nil_r, <- ?app_assoc; cbn; reflexivity.

Lemma waitFor_run site selector s :
  waitFor ext site selector s =
  let '(ok, w) := page_waitFor ext (world s) selector wait_timeout in
  (if ok then Return tt else Throw (TimeoutError selector),
   set_world w s, [EvWaitFor site selector ok]).
Proof.
  unfold waitFor. unfold_monad.
  destruct (page_waitFor ext (world s) selector wait_timeout) as [[] w];
    reflexivity.
Qed.

(** [healSelector] always returns: it never throws, it leaves the fields and
    the file alone, a selector it returns has just resolved, and a backend
    that rejects makes it return null. *)
Lemma healSelector_run selector description s :
  exists r w tail,
    healSelector ext selector description s
      = (Return r, set_world w s, EvHealSelector selector :: tail)
    /\ Forall (fun e => inside_repair e = true) tail
    /\ (forall z, r = Some z -> In (EvWaitFor Candidate z true) tail)
    /\ (forall req, In (EvAskWithImage req None) tail -> r = None)
    /\ (count_events is_ai_call tail <= 1)%nat.
Proof.
  unfold healSelector, screenshot, evaluate, askWithImage.
  unfold_monad. destruct s as [on c d w0]; cbn.
  destruct (page_screenshot ext w0) as [[img|] w1]; cbn.
  2:{ eexists _, _, _; split; [reflexivity|]. heal_log. }
  destruct (page_evaluate ext w1) as [[inv|] w2]; cbn.
  2:{ eexists _, _, _; split; [reflexivity|]. heal_log. }
  destruct (ai_askWithImage ext w2 _) as [[text|] w3]; cbn.
  2:{ eexists _, _, _; split; [reflexivity|]. heal_log. }
  rewrite waitFor_run; cbn.
  destruct (page_waitFor ext w3 _ wait_timeout) as [[] w4]; cbn;
    (eexists _, _, _; split; [reflexivity|]); heal_log.
Qed.

(** [saveCache] never throws. *)
Lemma saveCache_run s :
  saveCache ext s =
  let '(ok, w) := fs_attempt ext (world s) in
  (Return tt,
   mkState (enabled s) (cache s) (if ok then Some (Json (cache s)) else disk s) w,
   [EvWriteFile (cache s) ok]).
Proof.
  unfold saveCache. unfold_monad.
  destruct (fs_attempt ext (world s)) as [[] w]; reflexivity.
Qed.

(** The constructor leaves in [cache] what [persisted] reads off the file,
    when the file can be read. *)
Lemma constructor_cache env file w w' :
  fs_attempt ext w = (true, w') ->
  cache (constructor ext env file w).1.2 = persisted file.
Proof.
  intros Hfs. unfold constructor, loadCache. unfold_monad.
  destruct file as [[c|raw]|]; cbn; rewrite ?Hfs; reflexivity.
Qed.

Lemma replay_cached_run selector s :
  replay_cached ext selector s =
  match cache s !! selector with
  | None => (Return None, s, [EvCacheRead selector])
  | Some cached =>
      let '(t, w1) := date_now ext (world s) in
      let healed := healedSelector cached in
      if t - timestamp cached <? cache_ttl then
        let '(ok, w2) := page_waitFor ext w1 healed wait_timeout in
        if ok then
          (Return (Some (locator healed)), set_world w2 s,
           [EvCacheRead selector; EvDateNow t; EvWaitFor Cached healed true])
        else
          (Return None, set_cache (delete selector (cache s)) (set_world w2 s),
           [EvCacheRead selector; EvDateNow t; EvWaitFor Cached healed false;
            EvCacheDelete selector])
      else (Return None, set_world w1 s, [EvCacheRead selector; EvDateNow t])
  end.
Proof.
  unfold replay_cached, cache_read, Date_now, cache_delete.
  unfold_monad. destruct s as [on c d w0]; cbn.
  destruct (c !! selector) as [cached|]; cbn; [|reflexivity].
  destruct (date_now ext w0) as [t w1]; cbn.
  destruct (t - timestamp cached <? cache_ttl); cbn; [|reflexivity].
  rewrite waitFor_run; cbn.
  destruct (page_waitFor ext w1 _ wait_timeout) as [[] w2]; reflexivity.
Qed.

Lemma findElement_run selector description s :
  findElement ext selector description s =
  if negb (enabled s) then (Return (locator selector), s, [])
  else
    let '(ok, w1) := page_waitFor ext (world s) selector wait_timeout in
    let failed := EvWaitFor Primary selector false in
    if ok then
      (Return (locator selector), set_world w1 s,
       [EvWaitFor Primary selector true])
    else
      match replay_cached ext selector (set_world w1 s) with
      | (Return (Some l), s2, l2) => (Return l, s2, failed :: l2)
      | (Return None, s2, l2) =>
          match healSelector ext selector description s2 with
          | (Return (Some z), s3, l3) =>
              if bool_decide (z = "") then
                (Throw (JsError (failure_message selector)), s3,
                 failed :: l2 ++ l3)
              else
                (Return (locator z), (stored ext selector z s3).1,
                 failed :: l2 ++ l3 ++ (stored ext selector z s3).2)
          | (Return None, s3, l3) =>
              (Throw (JsError (failure_message selector)), s3,
               failed :: l2 ++ l3)
          | (Throw e, s3, l3) => (Throw e, s3, failed :: l2 ++ l3)
          end
      | (Throw e, s2, l2) => (Throw e, s2, failed :: l2)
      end.
Proof.
  unfold findElement at 1. unfold bind at 1, gets at 1.
  destruct (enabled s) eqn:Hon; cbn [negb]; [|reflexivity].
  unfold try_catch at 1. unfold bind at 1. rewrite waitFor_run.
  destruct (page_waitFor ext (world s) selector wait_timeout) as [[] w1];
    [reflexivity|].
  unfold bind at 1.
  destruct (replay_cached ext selector (set_world w1 s)) as [[[[l|]|e] s2] l2];
    [tidy| |tidy].
  unfold bind at 1.
  destruct (healSelector ext selector description s2) as [[[[z|]|e] s3] l3];
    [|tidy|tidy].
  cbn [truthy]. destruct (bool_decide (z = "")); cbn [negb]; [tidy|].
  unfold stored, Date_now, cache_set, saveCache. unfold_monad.
  destruct s3 as [on3 c3 d3 w3]; cbn.
  destruct (date_now ext w3) as [t w4]; cbn.
  destruct (fs_attempt ext w4) as [[] w5]; tidy.
Qed.

(** *** The log records what the outside answered *)

Lemma retrace_app w l1 l2 :
  retrace ext w (l1 ++ l2)
  = match retrace ext w l1 with
    | Some w' => retrace ext w' l2
    | None => None
    end.
Proof.
  revert w. induction l1 as [|e l1 IH]; intros w; [reflexivity|].
  destruct e; cbn [app retrace]; try apply IH.
  all: repeat case_match; try reflexivity; rewrite IH;
    match goal with H : retrace _ _ _ = _ |- _ => now rewrite H end.
Qed.

Lemma retrace_waitFor w site selector ok w' l :
  page_waitFor ext w selector wait_timeout = (ok, w') ->
  retrace ext w (EvWaitFor site selector ok :: l) = retrace ext w' l.
Proof. intros H. cbn. rewrite H. now rewrite bool_decide_eq_true_2. Qed.

Lemma retrace_date_now w t w' l :
  date_now ext w = (t, w') ->
  retrace ext w (EvDateNow t :: l) = retrace ext w' l.
Proof. intros H. cbn. rewrite H. now rewrite bool_decide_eq_true_2. Qed.

Lemma retrace_screenshot w r w' ok l :
  page_screenshot ext w = (r, w') ->
  bool_decide (is_Some r) = ok ->
  retrace ext w (EvScreenshot ok :: l) = retrace ext w' l.
Proof. intros H <-. cbn. rewrite H. now rewrite bool_decide_eq_true_2. Qed.

Lemma retrace_evaluate w r w' ok l :
  page_evaluate ext w = (r, w') ->
  bool_decide (is_Some r) = ok ->
  retrace ext w (EvEvaluate ok :: l) = retrace ext w' l.
Proof. intros H <-. cbn. rewrite H. now rewrite bool_decide_eq_true_2. Qed.

Lemma retrace_askWithImage w req r w' l :
  ai_askWithImage ext w req = (r, w') ->
  retrace ext w (EvAskWithImage req r :: l) = retrace ext w' l.
Proof. intros H. cbn. rewrite H. now rewrite bool_decide_eq_true_2. Qed.

Lemma retrace_write w c ok w' l :
  fs_attempt ext w = (ok, w') ->
  retrace ext w (EvWriteFile c ok :: l) = retrace ext w' l.
Proof. intros H. cbn. rewrite H. now rewrite bool_decide_eq_true_2. Qed.

Lemma retrace_healSelector w selector l :
  retrace ext w (EvHealSelector selector :: l) = retrace ext w l.
Proof. reflexivity. Qed.

Lemma retrace_cacheRead w key l :
  retrace ext w (EvCacheRead key :: l) = retrace ext w l.
Proof. reflexivity. Qed.

Lemma retrace_cacheSet w key entry l :
  retrace ext w (EvCacheSet key entry :: l) = retrace ext w l.
Proof. reflexivity. Qed.

Lemma healSelector_retrace selector description s out s' l :
  healSelector ext selector description s = (out, s', l) ->
  retrace ext (world s) l = Some (world s').
Proof.
  unfold healSelector, screenshot, evaluate, askWithImage.
  unfold_monad. destruct s as [on c d w0]; cbn.
  destruct (page_screenshot ext w0) as [[img|] w1] eqn:H1; cbn.
  2:{ intros [= <- <- <-]. rewrite retrace_healSelector.
      now rewrite (retrace_screenshot _ None _ false _ H1 eq_refl). }
  destruct (page_evaluate ext w1) as [[inv|] w2] eqn:H2; cbn.
  2:{ intros [= <- <- <-]. rewrite retrace_healSelector.
      rewrite (retrace_screenshot _ (Some img) _ true _ H1 eq_refl).
      now rewrite (retrace_evaluate _ None _ false _ H2 eq_refl). }
  destruct (ai_askWithImage ext w2 _) as [[text|] w3] eqn:H3; cbn.
  2:{ intros [= <- <- <-]. rewrite retrace_healSelector.
      rewrite (retrace_screenshot _ (Some img) _ true _ H1 eq_refl).
      rewrite (retrace_evaluate _ (Some inv) _ true _ H2 eq_refl).
      now rewrite (retrace_askWithImage _ _ _ _ _ H3). }
  rewrite waitFor_run; cbn.
  destruct (page_waitFor ext w3 _ wait_timeout) as [[] w4] eqn:H4; cbn;
    intros [= <- <- <-]; rewrite retrace_healSelector;
    rewrite (retrace_screenshot _ (Some img) _ true _ H1 eq_refl);
    rewrite (retrace_evaluate _ (Some inv) _ true _ H2 eq_refl);
    rewrite (retrace_askWithImage _ _ _ _ _ H3);
    now rewrite (retrace_waitFor _ _ _ _ _ _ H4).
Qed.

Lemma replay_cached_retrace selector s out s' l :
  replay_cached ext selector s = (out, s', l) ->
  retrace ext (world s) l = Some (world s').
Proof.
  rewrite replay_cached_run.
  destruct (cache s !! selector) as [cached|]; [|now intros [= <- <- <-]].
  destruct (date_now ext (world s)) as [t w1] eqn:H1. cbn zeta.
  destruct (t - timestamp cached <? cache_ttl).
  2:{ intros [= <- <- <-].
      now rewrite retrace_cacheRead, (retrace_date_now _ _ _ _ H1). }
  destruct (page_waitFor ext w1 _ wait_timeout) as [[] w2] eqn:H2;
    intros [= <- <- <-]; rewrite retrace_cacheRead;
    rewrite (retrace_date_now _ _ _ _ H1);
    now rewrite (retrace_waitFor _ _ _ _ _ _ H2).
Qed.

Lemma stored_retrace selector z s :
  retrace ext (world s) (stored ext selector z s).2
  = Some (world (stored ext selector z s).1).
Proof.
  unfold stored. destruct (date_now ext (world s)) as [t w1] eqn:H1.
  destruct (fs_attempt ext w1) as [ok w2] eqn:H2. cbn [fst snd world].
  rewrite (retrace_date_now _ _ _ _ H1), retrace_cacheSet.
  now rewrite (retrace_write _ _ _ _ _ H2).
Qed.

(** Every event of a call of [findElement] records the answer the outside
    gave at the world the call had reached. *)
Lemma findElement_retrace selector description s out s' evs :
  findElement ext selector description s = (out, s', evs) ->
  retrace ext (world s) evs = Some (world s').
Proof.
  rewrite findElement_run.
  destruct (enabled s); cbn [negb]; [|now intros [= <- <- <-]].
  destruct (page_waitFor ext (world s) selector wait_timeout)
    as [[] w1] eqn:H1.
  { intros [= <- <- <-]. now rewrite (retrace_waitFor _ _ _ _ _ _ H1). }
  cbn zeta.
  destruct (replay_cached ext selector (set_world w1 s))
    as [[r s2] l2] eqn:H2.
  apply replay_cached_retrace in H2. cbn [set_world world] in H2.
  assert (Hstep : forall l w,
            retrace ext (world s2) l = Some w ->
            retrace ext (world s) (EvWaitFor Primary selector false :: l2 ++ l)
            = Some w).
  { intros l w Hl. rewrite (retrace_waitFor _ _ _ _ _ _ H1).
    now rewrite retrace_app, H2. }
  destruct r as [[l|]|e].
  - intros [= <- <- <-]. specialize (Hstep [] _ eq_refl).
    now rewrite app_nil_r in Hstep.
  - destruct (healSelector ext selector description s2)
      as [[r3 s3] l3] eqn:H3.
    apply healSelector_retrace in H3.
    destruct r3 as [[z|]|e]; [|intros [= <- <- <-]; auto..].
    destruct (bool_decide (z = "")); intros [= <- <- <-]; [auto|].
    apply Hstep. rewrite retrace_app, H3. apply stored_retrace.
  - intros [= <- <- <-]. specialize (Hstep [] _ eq_refl).
    now rewrite app_nil_r in Hstep.
Qed.

(** A successful wait in a log that can be retraced was answered by the
    page. *)
Lemma retrace_resolved w evs w' site z :
  retrace ext w evs = Some w' ->
  In (EvWaitFor site z true) evs ->
  resolved_in ext w evs site z.
Proof.
  intros Hlog Hin. apply in_split in Hin as (pre & post & ->).
  rewrite retrace_app in Hlog.
  destruct (retrace ext w pre) as [w1|] eqn:Hpre; [|discriminate].
  cbn [retrace] in Hlog.
  destruct (page_waitFor ext w1 z wait_timeout) as [ok w2] eqn:Hpage.
  case_bool_decide as Hok; [|discriminate]. subst ok.
  now exists pre, post, w1, w2.
Qed.

Lemma retrace_prefix w l1 l2 w' :
  retrace ext w (l1 ++ l2) = Some w' -> is_Some (retrace ext w l1).
Proof.
  rewrite retrace_app. destruct (retrace ext w l1); [eauto|discriminate].
Qed.

End Runs.

(** ** Properties of [findElement] *)

Section Properties.

Context {World : Type} (ext : Externals World).
Implicit Types (s : State World) (w : World) (selector : string).

Lemma stored_cache selector z s :
  exists (t : Z) (ok : bool) w,
    stored ext selector z s
      = (mkState (enabled s)
           (<[selector := mkEntry z t default_confidence]> (cache s))
           (if ok then
              Some (Json (<[selector := mkEntry z t default_confidence]> (cache s)))
            else disk s)
           w,
         [EvDateNow t;
          EvCacheSet selector (mkEntry z t default_confidence);
          EvWriteFile (<[selector := mkEntry z t default_confidence]> (cache s)) ok]).
Proof.
  unfold stored. destruct (date_now ext (world s)) as [t w1].
  destruct (fs_attempt ext w1) as [ok w2]. now exists t, ok, w2.
Qed.

Lemma replay_cached_miss selector s s2 l2 :
  replay_cached ext selector s = (Return None, s2, l2) ->
  exists c w, s2 = mkState (enabled s) c (disk s) w /\ Miss s selector l2 c.
Proof.
  rewrite replay_cached_run. destruct s as [on c d w0]; cbn.
  destruct (c !! selector) as [cached|] eqn:Hc.
  2:{ intros [= <- <-]. eexists _, _; split; [reflexivity|].
      now apply miss_absent. }
  destruct (date_now ext w0) as [t w1].
  destruct (Z.ltb_spec (t - timestamp cached) cache_ttl) as [Hage|Hage].
  - destruct (page_waitFor ext w1 _ wait_timeout) as [[] w2]; [discriminate|].
    intros [= <- <-]. eexists _, _; split; [reflexivity|].
    now apply miss_stale.
  - intros [= <- <-]. eexists _, _; split; [reflexivity|].
    now apply miss_expired with (cached := cached).
Qed.

Lemma replay_cached_hit selector s l s2 l2 :
  replay_cached ext selector s = (Return (Some l), s2, l2) ->
  exists cached t w,
    cache s !! selector = Some cached /\ t - timestamp cached < cache_ttl
    /\ l = locator (healedSelector cached) /\ s2 = set_world w s
    /\ l2 = [EvCacheRead selector; EvDateNow t;
             EvWaitFor Cached (healedSelector cached) true].
Proof.
  rewrite replay_cached_run.
  destruct (cache s !! selector) as [cached|] eqn:Hc; [|discriminate].
  destruct (date_now ext (world s)) as [t w1]. cbn zeta.
  destruct (Z.ltb_spec (t - timestamp cached) cache_ttl) as [Hage|Hage];
    [|discriminate].
  destruct (page_waitFor ext w1 _ wait_timeout) as [[] w2]; [|discriminate].
  intros [= <- <- <-]. now exists cached, t, w2.
Qed.

Lemma replay_cached_returns selector s :
  exists r s2 l2, replay_cached ext selector s = (Return r, s2, l2).
Proof.
  rewrite replay_cached_run.
  destruct (cache s !! selector) as [cached|]; [|now eexists _, _, _].
  destruct (date_now ext (world s)) as [t w1]. cbn zeta.
  destruct (t - timestamp cached <? cache_ttl); [|now eexists _, _, _].
  destruct (page_waitFor ext w1 _ wait_timeout) as [[] w2];
    now eexists _, _, _.
Qed.

(** Every call of [findElement] goes one of the five ways. *)
Lemma findElement_Run selector description s out s' evs :
  findElement ext selector description s = (out, s', evs) ->
  Run s selector out s' evs.
Proof.
  rewrite findElement_run.
  destruct (enabled s) eqn:Hon; cbn [negb].
  2:{ intros [= <- <- <-]. now apply run_disabled. }
  destruct (page_waitFor ext (world s) selector wait_timeout) as [[] w1].
  { intros [= <- <- <-]. now apply run_primary. }
  cbn zeta.
  destruct (replay_cached_returns selector (set_world w1 s))
    as (r & s2 & l2 & Hreplay).
  rewrite Hreplay. destruct r as [l|].
  { intros [= <- <- <-].
    apply replay_cached_hit in Hreplay
      as (cached & t & w & Hc & Hage & -> & -> & ->).
    exact (run_cached s selector cached t w Hon Hc Hage). }
  apply replay_cached_miss in Hreplay as (c & w2 & -> & Hmiss).
  assert (Hmiss' : Miss s selector l2 c).
  { destruct s; inversion Hmiss; subst; cbn in *; econstructor; eauto. }
  clear Hmiss. cbn [enabled disk set_world] in *.
  destruct (healSelector_run ext selector description
              (mkState (enabled s) c (disk s) w2))
    as (r & w3 & tail & Hheal & Hall & Hvalid & Hdown & Hone).
  rewrite Hheal. rewrite Hon in *. cbn [set_world enabled cache disk] in *.
  destruct r as [z|].
  2:{ intros [= <- <- <-].
      exact (run_failed s selector l2 c tail w3 Hon Hmiss' Hall Hone). }
  case_bool_decide as Hz.
  { intros [= <- <- <-].
    exact (run_failed s selector l2 c tail w3 Hon Hmiss' Hall Hone). }
  destruct (stored_cache selector z (mkState true c (disk s) w3))
    as (t & ok & w4 & Hstored).
  change (set_world w3 (mkState true c (disk s) w2))
    with (mkState true c (disk s) w3).
  rewrite Hstored. cbn [fst snd enabled cache disk].
  intros [= <- <- <-].
  assert (Hup : forall req, ~ In (EvAskWithImage req None) tail).
  { intros req Hin. specialize (Hdown req Hin). discriminate. }
  exact (run_healed s selector l2 c tail z t ok _ Hon Hmiss' Hall
           (Hvalid z eq_refl) Hup Hone Hz).
Qed.

End Properties.

(** ** What a call may store *)

Section Stores.

Context {World : Type} (ext : Externals World).
Implicit Types (s : State World) (w : World) (selector : string).

Lemma Miss_facts s selector pre c :
  Miss s selector pre c ->
  Forall (fun e => is_store e = false) pre
  /\ Forall (fun e => is_repair e = false) pre
  /\ Forall (fun e => is_write e = false) pre
  /\ (forall k entry, c !! k = Some entry -> cache s !! k = Some entry).
Proof.
  destruct 1; repeat split; repeat constructor; auto.
  intros k entry [_ Hk]%lookup_delete_Some. exact Hk.
Qed.

Lemma inside_repair_facts tail :
  Forall (fun e => inside_repair e = true) tail ->
  Forall (fun e => is_store e = false) tail
  /\ Forall (fun e => is_repair e = false) tail
  /\ Forall (fun e => is_write e = false) tail
  /\ Forall (fun e => touches_cache e = false) tail
  /\ Forall (fun e => is_replay e = false) tail.
Proof.
  intros H. repeat split; eapply Forall_impl; try exact H;
    intros [[] ? ?| | | | | | | | | | | |]; cbn; done.
Qed.

Lemma Miss_no_backend s selector pre c :
  Miss s selector pre c ->
  Forall (fun e => is_ai_call e = false) pre
  /\ Forall (fun e => inside_repair e = false) pre.
Proof. destruct 1; split; repeat constructor. Qed.

Lemma count_events_cons p e l :
  count_events p (e :: l)
  = ((if p e then 1 else 0) + count_events p l)%nat.
Proof. unfold count_events. cbn. now destruct (p e). Qed.

(** The repair is requested once and the backend is called at most once
    whenever the call gets as far as the cache block's end. *)
Lemma repair_counts s selector pre c tail post :
  Miss s selector pre c ->
  Forall (fun e => inside_repair e = true) tail ->
  (count_events is_ai_call tail <= 1)%nat ->
  Forall (fun e => is_repair e = false) post ->
  Forall (fun e => is_ai_call e = false) post ->
  let evs := EvWaitFor Primary selector false :: pre
               ++ EvHealSelector selector :: tail ++ post in
  count_events is_repair evs = 1%nat
  /\ (count_events is_ai_call evs <= 1)%nat.
Proof.
  intros Hmiss Hall Hone Hp1 Hp2 evs. subst evs.
  destruct (Miss_facts s selector pre c Hmiss) as (_ & Hr & _).
  destruct (Miss_no_backend s selector pre c Hmiss) as (Ha & _).
  destruct (inside_repair_facts tail Hall) as (_ & Hr' & _).
  rewrite !count_events_cons, !count_events_app, !count_events_cons,
    !count_events_app.
  rewrite (count_events_none _ _ Hr), (count_events_none _ _ Hr'),
    (count_events_none _ _ Hp1), (count_events_none _ _ Ha),
    (count_events_none _ _ Hp2).
  cbn. lia.
Qed.

(** The one place where [findElement] assigns into the cache. *)
Lemma findElement_store selector description s out s' evs pre k entry post :
  findElement ext selector description s = (out, s', evs) ->
  evs = pre ++ EvCacheSet k entry :: post ->
  k = selector
  /\ In (EvWaitFor Candidate (healedSelector entry) true) pre
  /\ out = Return (locator (healedSelector entry))
  /\ cache s' !! k = Some entry
  /\ exists ok, post = [EvWriteFile (cache s') ok]
       /\ (ok = true -> disk s' = Some (Json (cache s'))).
Proof.
  intros Hrun%findElement_Run Hevs.
  destruct Hrun as [Hon|w Hon|cached t w Hon Hc Hage
                   |pre0 c tail z t ok w Hon Hmiss Hall Hvalid Hup Hone Hz entry0
                   |pre0 c tail w Hon Hmiss Hall Hone].
  - now destruct pre.
  - exfalso. revert Hevs. apply (not_in_split is_store); repeat constructor.
  - exfalso. revert Hevs. apply (not_in_split is_store); repeat constructor.
  - apply Miss_facts in Hmiss as (Hm & _).
    apply inside_repair_facts in Hall as (Ht & _).
    change (EvWaitFor Primary selector false :: pre0
              ++ EvHealSelector selector :: tail
              ++ [EvDateNow t; EvCacheSet selector entry0;
                  EvWriteFile (<[selector:=entry0]> c) ok])
      with ((EvWaitFor Primary selector false :: pre0)
              ++ (EvHealSelector selector :: tail)
              ++ [EvDateNow t] ++ EvCacheSet selector entry0 ::
                 [EvWriteFile (<[selector:=entry0]> c) ok]) in Hevs.
    rewrite !app_assoc in Hevs.
    apply (split_unique is_store) in Hevs as (<- & [= <- <-] & <-);
      [| |repeat constructor|reflexivity].
    2:{ repeat (apply Forall_app; split); repeat constructor; auto. }
    cbn [cache disk healedSelector entry0].
    split; [reflexivity|]. split.
    { apply in_or_app; left. apply in_or_app; right. now right. }
    split; [reflexivity|]. split; [apply lookup_insert_eq|].
    exists ok. split; [reflexivity|]. now intros ->.
  - exfalso. revert Hevs. apply Miss_facts in Hmiss as (Hm & _).
    apply inside_repair_facts in Hall as (Ht & _).
    apply (not_in_split is_store); [|reflexivity].
    constructor; [reflexivity|]. apply Forall_app; split; [exact Hm|].
    constructor; [reflexivity|exact Ht].
Qed.

(** From the end of the cache block on: the repair is requested, and the
    call either throws or stores the candidate that resolved. *)
Lemma findElement_after_miss selector description s w1 s2 l2 :
  enabled s = true ->
  page_waitFor ext (world s) selector wait_timeout = (false, w1) ->
  replay_cached ext selector (set_world w1 s) = (Return None, s2, l2) ->
  exists r w3 tail,
    healSelector ext selector description s2
      = (Return r, set_world w3 s2, EvHealSelector selector :: tail)
    /\ Forall (fun e => inside_repair e = true) tail
    /\ (forall z, r = Some z -> In (EvWaitFor Candidate z true) tail)
    /\ ((truthy r = false
         /\ findElement ext selector description s
            = (Throw (JsError (failure_message selector)), set_world w3 s2,
               EvWaitFor Primary selector false :: l2
                 ++ EvHealSelector selector :: tail))
        \/ (exists z t (ok : bool) w4,
              r = Some z /\ z <> ""
              /\ let entry := mkEntry z t default_confidence in
                 let c := <[selector := entry]> (cache s2) in
                 findElement ext selector description s
                 = (Return (locator z),
                    mkState (enabled s2) c
                      (if ok then Some (Json c) else disk s2) w4,
                    EvWaitFor Primary selector false :: l2
                      ++ EvHealSelector selector :: tail
                      ++ [EvDateNow t; EvCacheSet selector entry;
                          EvWriteFile c ok]))).
Proof.
  intros Hon Hprimary Hreplay.
  rewrite findElement_run, Hon, Hprimary. cbn [negb]. cbn zeta.
  rewrite Hreplay.
  destruct (healSelector_run ext selector description s2)
    as (r & w3 & tail & Hheal & Hall & Hvalid & _ & _).
  exists r, w3, tail. rewrite Hheal.
  split; [reflexivity|]. split; [exact Hall|]. split; [exact Hvalid|].
  destruct r as [z|]; [|left; now split].
  cbn [truthy]. case_bool_decide as Hz; [left; now split|right].
  destruct (stored_cache ext selector z (set_world w3 s2))
    as (t & ok & w4 & Hstored).
  exists z, t, ok, w4. split; [reflexivity|]. split; [exact Hz|].
  cbn zeta. rewrite Hstored. reflexivity.
Qed.

Lemma replay_cached_stale selector s cached t w1 w2 w3 :
  enabled s = true ->
  cache s !! selector = Some cached ->
  date_now ext w1 = (t, w2) ->
  t - timestamp cached < cache_ttl ->
  page_waitFor ext w2 (healedSelector cached) wait_timeout = (false, w3) ->
  replay_cached ext selector (set_world w1 s)
  = (Return None, mkState true (delete selector (cache s)) (disk s) w3,
     [EvCacheRead selector; EvDateNow t;
      EvWaitFor Cached (healedSelector cached) false; EvCacheDelete selector]).
Proof.
  intros Hon Hc Hnow Hage Hreplay.
  rewrite replay_cached_run. cbn [set_world cache world].
  rewrite Hc, Hnow. cbn zeta.
  destruct (Z.ltb_spec (t - timestamp cached) cache_ttl); [|lia].
  rewrite Hreplay. unfold set_cache, set_world.
  cbn [enabled cache disk world]. now rewrite Hon.
Qed.

Lemma replay_cached_expired selector s cached t w1 w2 :
  cache s !! selector = Some cached ->
  date_now ext w1 = (t, w2) ->
  cache_ttl <= t - timestamp cached ->
  replay_cached ext selector (set_world w1 s)
  = (Return None, set_world w2 s, [EvCacheRead selector; EvDateNow t]).
Proof.
  intros Hc Hnow Hold.
  rewrite replay_cached_run. cbn [set_world cache world].
  rewrite Hc, Hnow. cbn zeta.
  destruct (Z.ltb_spec (t - timestamp cached) cache_ttl); [lia|reflexivity].
Qed.

End Stores.

Section Specification.

Context {World : Type} (ext : Externals World).
Implicit Types (s : State World) (w : World) (selector : string).

(** C1. With the feature enabled, a selector that [findElement] returns as a
    locator has resolved on the page during the call: it is the primary one,
    the healed selector of the cache entry, or the candidate of the repair;
    the successful wait is in the call's events, and at the world the call
    had reached by then the page itself answers that the selector resolves
    within the wait.  An assignment into the cache is preceded, within the
    call, by such a wait on the candidate it stores; so every entry of the
    cache after the call was there before or holds a candidate that the
    page resolved during the call. *)
Theorem findElement_only_validated selector description s out s' evs :
  enabled s = true ->
  findElement ext selector description s = (out, s', evs) ->
  (forall z, out = Return (locator z) ->
     (z = selector /\ resolved_in ext (world s) evs Primary z)
     \/ ((exists cached, cache s !! selector = Some cached
                         /\ healedSelector cached = z)
         /\ resolved_in ext (world s) evs Cached z)
     \/ resolved_in ext (world s) evs Candidate z)
  /\ (forall pre k entry post,
        evs = pre ++ EvCacheSet k entry :: post ->
        resolved_in ext (world s) pre Candidate (healedSelector entry))
  /\ (forall k entry,
        cache s' !! k = Some entry ->
        cache s !! k = Some entry
        \/ resolved_in ext (world s) evs Candidate (healedSelector entry)).
Proof.
  intros Hon Hfind. pose proof (findElement_retrace ext _ _ _ _ _ _ Hfind) as Hlog.
  assert (Hpage : forall site z,
            In (EvWaitFor site z true) evs ->
            resolved_in ext (world s) evs site z).
  { intros site z. exact (retrace_resolved ext _ _ _ site z Hlog). }
  split; [|split].
  - intros z ->. apply findElement_Run in Hfind.
    inversion Hfind; subst; try congruence.
    + left. split; [reflexivity|]. apply Hpage. now left.
    + right; left. split; [now exists cached|]. apply Hpage. cbn. tauto.
    + right; right. apply Hpage. right. apply in_or_app; right. right.
      apply in_or_app; now left.
  - intros pre k entry post Hevs.
    destruct (findElement_store ext _ _ _ _ _ _ _ _ _ _ Hfind Hevs)
      as (_ & Hin & _).
    rewrite Hevs in Hlog. apply retrace_prefix in Hlog as [w Hpre].
    exact (retrace_resolved ext _ _ _ _ _ Hpre Hin).
  - intros k entry Hk. apply findElement_Run in Hfind.
    inversion Hfind; subst; try congruence; cbn in Hk; try (now left).
    + apply Miss_facts in H0 as (_ & _ & _ & Hkeep).
      apply lookup_insert_Some in Hk as [[<- <-]|[_ Hk]]; [|left; auto].
      right. apply Hpage. cbn. right. apply in_or_app; right. right.
      apply in_or_app; now left.
    + apply Miss_facts in H0 as (_ & _ & _ & Hkeep). left; auto.
Qed.

(** C2, as the code has it.  With the feature disabled, [findElement] asks
    nothing of the page, the clock, the backend, the cache or the file: it
    returns the lazy locator of the primary selector and leaves everything
    as it was, whether or not the selector would resolve. *)
Theorem disabled_returns_plain_locator selector description s :
  enabled s = false ->
  findElement ext selector description s = (Return (locator selector), s, []).
Proof. intros Hoff. rewrite findElement_run, Hoff. reflexivity. Qed.

(** C6. When the primary selector resolves within the wait, [findElement]
    returns its locator at once: no repair request, no backend call, no
    access to the cache object or to the cache file, and the cache and the
    file are what they were. *)
Theorem primary_hit_touches_nothing selector description s w1 :
  page_waitFor ext (world s) selector wait_timeout = (true, w1) ->
  exists s' evs,
    findElement ext selector description s = (Return (locator selector), s', evs)
    /\ evs = (if enabled s then [EvWaitFor Primary selector true] else [])
    /\ cache s' = cache s /\ disk s' = disk s /\ enabled s' = enabled s
    /\ count_events is_repair evs = 0%nat
    /\ count_events is_ai_call evs = 0%nat
    /\ count_events touches_cache evs = 0%nat
    /\ count_events touches_file evs = 0%nat.
Proof.
  intros Hhit. rewrite findElement_run, Hhit.
  destruct (enabled s) eqn:Hon; cbn [negb];
    eexists _, _; (split; [reflexivity|]); rewrite ?Hon; now cbn.
Qed.

(** C7, as the code has it.  The only error [findElement] throws is
    [new Error] with the message "Could not find or heal selector: "
    followed by the primary selector, and it throws it whenever the feature
    is enabled and no wait of the call succeeded.  The error is a function
    of the primary selector alone. *)
Theorem exhaustion_error_names_primary selector description s out s' evs :
  findElement ext selector description s = (out, s', evs) ->
  (forall e, out = Throw e -> e = JsError (failure_message selector))
  /\ (enabled s = true ->
      (forall site z, ~ In (EvWaitFor site z true) evs) ->
      out = Throw (JsError (failure_message selector))).
Proof.
  intros Hrun%findElement_Run. split.
  - intros e ->. inversion Hrun; subst; reflexivity.
  - intros Hon Hnone. inversion Hrun; subst; try reflexivity; try congruence.
    + destruct (Hnone Primary selector). now left.
    + destruct (Hnone Cached (healedSelector cached)). cbn. tauto.
    + destruct (Hnone Candidate z). right. apply in_or_app; right. right.
      apply in_or_app; now left.
Qed.

(** C8. [healSelector] never throws: whatever the page and the backend do,
    it returns, and it returns null when the backend call rejects.  In
    [findElement] a rejected backend call therefore shows only as the thrown
    error that names the primary selector.  A call requests the repair at
    most once and calls the backend at most once, and a call that throws has
    requested the repair exactly once. *)
Theorem backend_failure_is_absorbed selector description s :
  (exists r s1 l1,
     healSelector ext selector description s = (Return r, s1, l1)
     /\ (forall req, In (EvAskWithImage req None) l1 -> r = None))
  /\ (forall out s' evs,
        findElement ext selector description s = (out, s', evs) ->
        (count_events is_repair evs <= 1)%nat
        /\ (count_events is_ai_call evs <= 1)%nat
        /\ (forall req, In (EvAskWithImage req None) evs ->
              out = Throw (JsError (failure_message selector)))
        /\ (forall e, out = Throw e ->
              e = JsError (failure_message selector)
              /\ count_events is_repair evs = 1%nat)).
Proof.
  split.
  - destruct (healSelector_run ext selector description s)
      as (r & w & tail & Hheal & _ & _ & Hdown & _).
    exists r, (set_world w s), (EvHealSelector selector :: tail).
    split; [exact Hheal|]. intros req [Hin|Hin]; [discriminate|eauto].
  - intros out s' evs Hrun%findElement_Run.
    destruct Hrun as [Hon|w Hon|cached t w Hon Hc Hage
                     |pre c tail z t ok w Hon Hmiss Hall Hvalid Hup Hone Hz entry
                     |pre c tail w Hon Hmiss Hall Hone].
    + cbn. repeat split; try lia; try done.
    + cbn. repeat split; try lia; try done. intros req [|[]]; discriminate.
    + cbn. repeat split; try lia; try done.
      intros req Hin. cbn in Hin. intuition discriminate.
    + destruct (repair_counts s selector pre c tail
                  [EvDateNow t; EvCacheSet selector entry;
                   EvWriteFile (<[selector:=entry]> c) ok] Hmiss Hall Hone)
        as (Hr & Ha); [repeat constructor..|].
      split; [lia|]. split; [exact Ha|]. split; [|done].
      intros req [Hin|Hin]; [discriminate|]. exfalso.
      apply in_app_or in Hin as [Hin|[Hin|Hin]]; [|discriminate|].
      * destruct (Miss_no_backend s selector pre c Hmiss) as (Hb & _).
        rewrite Forall_forall in Hb.
        apply list_elem_of_In, Hb in Hin. discriminate.
      * apply in_app_or in Hin as [Hin|Hin]; [now apply (Hup req)|].
        cbn in Hin. intuition discriminate.
    + destruct (repair_counts s selector pre c tail [] Hmiss Hall Hone)
        as (Hr & Ha); [constructor..|].
      rewrite app_nil_r in Hr, Ha.
      split; [lia|]. split; [exact Ha|]. split; [reflexivity|].
      intros e [= <-]. now split.
Qed.

(** C3. The primary selector fails, the cache holds an entry for it that is
    younger than the lifetime, and the healed selector of that entry fails
    too.  Then the call deletes the entry and requests the repair; when the
    repair returns a candidate (one that has just resolved), the call
    returns its locator and the cache afterwards is the old cache with the
    primary selector mapped to a new entry for that candidate; when the
    repair returns nothing, the call throws and the entry stays deleted. *)
Theorem stale_entry_is_replaced selector description s cached t w1 w2 w3 :
  enabled s = true ->
  page_waitFor ext (world s) selector wait_timeout = (false, w1) ->
  cache s !! selector = Some cached ->
  date_now ext w1 = (t, w2) ->
  t - timestamp cached < cache_ttl ->
  page_waitFor ext w2 (healedSelector cached) wait_timeout = (false, w3) ->
  exists r w4 tail out s' rest,
    healSelector ext selector description
      (mkState true (delete selector (cache s)) (disk s) w3)
      = (Return r, mkState true (delete selector (cache s)) (disk s) w4,
         EvHealSelector selector :: tail)
    /\ findElement ext selector description s
       = (out, s',
          [EvWaitFor Primary selector false; EvCacheRead selector;
           EvDateNow t; EvWaitFor Cached (healedSelector cached) false;
           EvCacheDelete selector; EvHealSelector selector] ++ tail ++ rest)
    /\ (forall z, r = Some z -> z <> "" ->
          In (EvWaitFor Candidate z true) tail
          /\ out = Return (locator z)
          /\ exists t',
               cache s' = <[selector := mkEntry z t' default_confidence]> (cache s))
    /\ (truthy r = false ->
          out = Throw (JsError (failure_message selector))
          /\ cache s' = delete selector (cache s)).
Proof.
  intros Hon Hprimary Hc Hnow Hage Hreplay.
  pose proof (replay_cached_stale ext selector s cached t w1 w2 w3
                Hon Hc Hnow Hage Hreplay) as Hmiss.
  destruct (findElement_after_miss ext selector description s w1 _ _
              Hon Hprimary Hmiss)
    as (r & w4 & tail & Hheal & _ & Hvalid & [[Hnull Hfind]|Hfind]).
  - eexists r, w4, tail, _, _, []. split; [exact Hheal|].
    split; [rewrite Hfind, app_nil_r; reflexivity|]. split.
    + intros z -> Hz. cbn in Hnull. now case_bool_decide.
    + intros _. now split.
  - destruct Hfind as (z & t' & ok & w5 & -> & Hz & Hfind).
    cbn zeta in Hfind. cbn [enabled cache disk] in Hfind.
    eexists (Some z), w4, tail, _, _, _. split; [exact Hheal|].
    split; [rewrite Hfind; reflexivity|]. split.
    + intros z' [= <-] _. split; [now apply Hvalid|]. split; [reflexivity|].
      exists t'. cbn [cache]. apply insert_delete_eq.
    + cbn. case_bool_decide; [congruence|discriminate].
Qed.

(** C5. The lifetime of an entry is one hour.  When the primary selector
    fails and the cache holds an entry for it that was stamped at least 61
    minutes before the clock is read, the healed selector of the entry is
    not waited for: right after reading the clock the call requests the
    repair, as it does when there is no entry. *)
Theorem expired_entry_not_replayed selector description s cached t w1 w2 :
  enabled s = true ->
  page_waitFor ext (world s) selector wait_timeout = (false, w1) ->
  cache s !! selector = Some cached ->
  date_now ext w1 = (t, w2) ->
  timestamp cached + 61 * 60 * 1000 <= t ->
  cache_ttl = 60 * 60 * 1000
  /\ exists out s' tail,
       findElement ext selector description s
       = (out, s',
          [EvWaitFor Primary selector false; EvCacheRead selector;
           EvDateNow t; EvHealSelector selector] ++ tail)
       /\ count_events is_replay
            ([EvWaitFor Primary selector false; EvCacheRead selector;
              EvDateNow t; EvHealSelector selector] ++ tail) = 0%nat.
Proof.
  intros Hon Hprimary Hc Hnow Hold. split; [reflexivity|].
  assert (Hage : cache_ttl <= t - timestamp cached)
    by (unfold cache_ttl; lia).
  pose proof (replay_cached_expired ext selector s cached t w1 w2
                Hc Hnow Hage) as Hmiss.
  destruct (findElement_after_miss ext selector description s w1 _ _
              Hon Hprimary Hmiss)
    as (r & w4 & tail & _ & Hall & _ & [[_ Hfind]|Hfind]).
  - eexists _, _, tail. split; [exact Hfind|].
    destruct (inside_repair_facts tail Hall) as (_ & _ & _ & _ & Hno).
    cbn [app]. rewrite !count_events_cons. cbn [is_replay].
    now rewrite (count_events_none _ _ Hno).
  - destruct Hfind as (z & t' & ok & w5 & _ & _ & Hfind). cbn zeta in Hfind.
    eexists _, _, _. split; [exact Hfind|].
    destruct (inside_repair_facts tail Hall) as (_ & _ & _ & _ & Hno).
    cbn [app]. rewrite !count_events_cons, count_events_app. cbn [is_replay].
    now rewrite (count_events_none _ _ Hno).
Qed.

(** C9, as the code has it.  An entry whose age has reached the lifetime
    is passed over, not deleted: its healed selector is not waited for, no
    deletion happens, and the entry is still in the cache when the call
    throws; it goes only when a repair succeeds and its entry takes the
    place.  An entry that is young enough and whose healed selector fails
    is deleted: the call throws with no entry left for the primary
    selector, or returns with the entry of the new candidate. *)
Theorem expired_entry_is_kept selector description s cached t w1 w2 :
  enabled s = true ->
  page_waitFor ext (world s) selector wait_timeout = (false, w1) ->
  cache s !! selector = Some cached ->
  date_now ext w1 = (t, w2) ->
  (cache_ttl <= t - timestamp cached ->
   exists out s' evs,
     findElement ext selector description s = (out, s', evs)
     /\ count_events is_replay evs = 0%nat
     /\ ~ In (EvCacheDelete selector) evs
     /\ ((exists e, out = Throw e) ->
         cache s' = cache s /\ cache s' !! selector = Some cached)
     /\ (forall z, out = Return (locator z) ->
           exists t',
             cache s' = <[selector := mkEntry z t' default_confidence]> (cache s)))
  /\ (t - timestamp cached < cache_ttl ->
      forall w3,
        page_waitFor ext w2 (healedSelector cached) wait_timeout = (false, w3) ->
        exists out s' evs,
          findElement ext selector description s = (out, s', evs)
          /\ In (EvCacheDelete selector) evs
          /\ ((exists e, out = Throw e) -> cache s' !! selector = None)
          /\ (forall z, out = Return (locator z) ->
                exists t',
                  cache s' !! selector
                  = Some (mkEntry z t' default_confidence))).
Proof.
  intros Hon Hprimary Hc Hnow. split.
  - intros Hold.
    pose proof (replay_cached_expired ext selector s cached t w1 w2
                  Hc Hnow Hold) as Hmiss.
    destruct (findElement_after_miss ext selector description s w1 _ _
                Hon Hprimary Hmiss)
      as (r & w4 & tail & _ & Hall & _ & [[_ Hfind]|Hfind]).
    + eexists _, _, _. split; [exact Hfind|].
      destruct (inside_repair_facts tail Hall) as (_ & _ & _ & Hnc & Hno).
      split; [|split; [|split]].
      * cbn [app]. rewrite !count_events_cons. cbn [is_replay].
        now rewrite (count_events_none _ _ Hno).
      * intros [Hin|[Hin|[Hin|[Hin|Hin]]]]; try discriminate.
        rewrite Forall_forall in Hnc.
        apply list_elem_of_In, Hnc in Hin. discriminate.
      * intros _. cbn. now split.
      * intros z [=].
    + destruct Hfind as (z & t' & ok & w5 & _ & _ & Hfind). cbn zeta in Hfind.
      eexists _, _, _. split; [exact Hfind|].
      destruct (inside_repair_facts tail Hall) as (_ & _ & _ & Hnc & Hno).
      split; [|split; [|split]].
      * cbn [app]. rewrite !count_events_cons, count_events_app.
        cbn [is_replay]. now rewrite (count_events_none _ _ Hno).
      * intros [Hin|[Hin|[Hin|[Hin|Hin]]]]; try discriminate.
        apply in_app_or in Hin as [Hin|Hin].
        -- rewrite Forall_forall in Hnc.
           apply list_elem_of_In, Hnc in Hin. discriminate.
        -- cbn in Hin. intuition discriminate.
      * intros [e [=]].
      * intros z' [= <-]. now exists t'.
  - intros Hage w3 Hreplay.
    pose proof (replay_cached_stale ext selector s cached t w1 w2 w3
                  Hon Hc Hnow Hage Hreplay) as Hmiss.
    destruct (findElement_after_miss ext selector description s w1 _ _
                Hon Hprimary Hmiss)
      as (r & w4 & tail & _ & _ & _ & [[_ Hfind]|Hfind]).
    + eexists _, _, _. split; [exact Hfind|]. split; [cbn; tauto|].
      split; [|intros z [=]]. intros _. cbn. apply lookup_delete_eq.
    + destruct Hfind as (z & t' & ok & w5 & _ & _ & Hfind). cbn zeta in Hfind.
      eexists _, _, _. split; [exact Hfind|]. split; [cbn; tauto|].
      split; [intros [e [=]]|]. intros z' [= <-]. exists t'. cbn.
      apply lookup_insert_eq.
Qed.

(** C4, as the code has it.  [saveCache] writes the whole in-memory map to
    the cache file and swallows a failure of the write.  In [findElement]
    an assignment into the cache is followed at once by that write, after
    which the call returns: when the write went through, the file holds the
    in-memory map.  [clearCache] empties the map and writes nothing: it
    removes the file, which loads as the empty cache. *)
Theorem store_is_flushed_clear_unlinks s :
  (exists (ok : bool) w,
     saveCache ext s
     = (Return tt,
        mkState (enabled s) (cache s)
          (if ok then Some (Json (cache s)) else disk s) w,
        [EvWriteFile (cache s) ok]))
  /\ (forall selector description out s' evs pre k entry post,
        findElement ext selector description s = (out, s', evs) ->
        evs = pre ++ EvCacheSet k entry :: post ->
        cache s' !! k = Some entry
        /\ exists ok,
             post = [EvWriteFile (cache s') ok]
             /\ (ok = true ->
                 disk s' = Some (Json (cache s'))
                 /\ persisted (disk s') = cache s'))
  /\ (exists out s' evs,
        clearCache ext s = (out, s', evs)
        /\ cache s' = ∅
        /\ count_events is_write evs = 0%nat
        /\ (out = Return tt -> disk s' = None /\ persisted (disk s') = cache s')).
Proof.
  split; [|split].
  - rewrite saveCache_run.
    destruct (fs_attempt ext (world s)) as [ok w]. now exists ok, w.
  - intros selector description out s' evs pre k entry post Hfind Hevs.
    destruct (findElement_store ext _ _ _ _ _ _ _ _ _ _ Hfind Hevs)
      as (_ & _ & _ & Hk & ok & Hpost & Hdisk).
    split; [exact Hk|]. exists ok. split; [exact Hpost|].
    intros Hok. specialize (Hdisk Hok). split; [exact Hdisk|].
    now rewrite Hdisk.
  - unfold clearCache, bind, gets, ask_world, emit, modify, ret, throw.
    destruct s as [on c [d|] w]; cbn.
    + destruct (fs_attempt ext w) as [[] w']; cbn;
        eexists _, _, _; (split; [reflexivity|]); cbn; repeat split;
        discriminate.
    + eexists _, _, _; (split; [reflexivity|]); cbn; repeat split.
Qed.

(** C10. The constructor enables self-healing unless the environment
    variable [ENABLE_SELF_HEALING] is exactly the string "false": unset, or
    set to anything else ("FALSE", "0", "no"), it leaves it enabled. *)
Theorem enabled_unless_false (env : gmap string string) file w :
  (enabled (constructor ext env file w).1.2 = true
   <-> env !! "ENABLE_SELF_HEALING" <> Some "false")
  /\ (env !! "ENABLE_SELF_HEALING" = None ->
      enabled (constructor ext env file w).1.2 = true)
  /\ (forall v, env !! "ENABLE_SELF_HEALING" = Some v ->
        v = "FALSE" \/ v = "0" \/ v = "no" ->
        enabled (constructor ext env file w).1.2 = true).
Proof.
  assert (Hen : enabled (constructor ext env file w).1.2
                = negb (bool_decide (env !! "ENABLE_SELF_HEALING" = Some "false"))).
  { unfold constructor, loadCache, try_catch, bind, gets, ask_world, emit,
      modify, ret, throw.
    destruct file as [[c|raw]|]; cbn; try reflexivity;
      destruct (fs_attempt ext w) as [[] w']; reflexivity. }
  rewrite Hen. split; [|split].
  - case_bool_decide; cbn; split; congruence.
  - intros ->. reflexivity.
  - intros v -> [ -> | [ -> | -> ] ]; reflexivity.
Qed.

End Specification.

(** ** The properties on scripted pages *)

(** C1 on the redesigned page: the selector that comes back is the one the
    backend proposed, and the page resolved it before it was stored. *)
Lemma findElement_only_validated_witness :
  enabled (fresh true redesigned) = true
  /\ exists s' evs,
       findElement scene "#submit" None (fresh true redesigned)
       = (Return (locator "#submit-v2"), s', evs)
       /\ resolved_in scene redesigned evs Candidate "#submit-v2"
       /\ forall k entry,
            cache s' !! k = Some entry ->
            resolved_in scene redesigned evs Candidate (healedSelector entry).
Proof.
  split; [reflexivity|].
  destruct (findElement scene "#submit" None (fresh true redesigned))
    as [[out s'] evs] eqn:Hrun.
  destruct (findElement_only_validated scene "#submit" None
              (fresh true redesigned) out s' evs eq_refl Hrun)
    as (Hout & _ & Hcache).
  vm_compute in Hrun. injection Hrun as <- <- <-.
  eexists _, _. split; [reflexivity|]. split.
  - destruct (Hout "#submit-v2" eq_refl) as [[Hz _]|[[[c [Hc _]] _]|Hin]];
      [discriminate Hz| |exact Hin].
    unfold fresh in Hc. cbn [cache] in Hc.
    rewrite lookup_empty in Hc. discriminate.
  - intros k entry Hk. destruct (Hcache k entry Hk) as [Hold|Hin]; [|exact Hin].
    unfold fresh in Hold. cbn [cache] in Hold.
    rewrite lookup_empty in Hold. discriminate.
Defined.

(** C2 on a page where nothing resolves: the locator comes back all the
    same. *)
Lemma disabled_returns_plain_locator_witness :
  enabled (fresh false (blank None)) = false
  /\ findElement scene "#submit" None (fresh false (blank None))
     = (Return (locator "#submit"), fresh false (blank None), []).
Proof.
  split; [reflexivity|].
  apply (disabled_returns_plain_locator scene "#submit" None
           (fresh false (blank None))).
  reflexivity.
Defined.

(** C2 as stated fails: with the feature disabled and a primary selector
    that does not resolve, nothing is thrown. *)
Lemma disabled_failure_not_raised :
  enabled (fresh false (blank None)) = false
  /\ page_waitFor scene (world (fresh false (blank None))) "#submit" wait_timeout
     = (false, blank None)
  /\ (findElement scene "#submit" None (fresh false (blank None))).1.1
     = Return (locator "#submit")
  /\ forall e s' evs,
       findElement scene "#submit" None (fresh false (blank None))
       <> (Throw e, s', evs).
Proof. repeat split; try reflexivity. intros e s' evs. discriminate. Qed.

(** C6 on the original page. *)
Lemma primary_hit_touches_nothing_witness :
  page_waitFor scene original "#submit" wait_timeout = (true, original)
  /\ findElement scene "#submit" (Some "the submit button")
       (with_cache (healed_at 0) original)
     = (Return (locator "#submit"), with_cache (healed_at 0) original,
        [EvWaitFor Primary "#submit" true]).
Proof.
  split; [reflexivity|].
  destruct (primary_hit_touches_nothing scene "#submit"
              (Some "the submit button") (with_cache (healed_at 0) original)
              original eq_refl)
    as (s' & evs & Hrun & _).
  rewrite Hrun. vm_compute in Hrun. injection Hrun as <- <-. reflexivity.
Defined.

(** C7 on a page where nothing resolves and the backend proposes [#send]. *)
Lemma exhaustion_error_names_primary_witness :
  (findElement scene "#submit" None (fresh true (blank (Some "#send")))).1.1
  = Throw (JsError "Could not find or heal selector: #submit").
Proof.
  destruct (findElement scene "#submit" None (fresh true (blank (Some "#send"))))
    as [[out s'] evs] eqn:Hrun.
  destruct (exhaustion_error_names_primary scene "#submit" None
              (fresh true (blank (Some "#send"))) out s' evs Hrun)
    as [_ Hexhausted].
  cbn [fst]. apply Hexhausted; [reflexivity|].
  vm_compute in Hrun. injection Hrun as <- <- <-.
  intros site z Hin. cbn in Hin. intuition discriminate.
Defined.

(** C7 as stated fails: two calls that tried different candidates throw the
    same error, so the error does not carry the candidate. *)
Lemma exhaustion_error_omits_candidate :
  let a := findElement scene "#submit" None (fresh true (blank (Some "#send"))) in
  let b := findElement scene "#submit" None (fresh true (blank (Some "#ok-button"))) in
  In (EvWaitFor Candidate "#send" false) a.2
  /\ In (EvWaitFor Candidate "#ok-button" false) b.2
  /\ a.1.1 = Throw (JsError "Could not find or heal selector: #submit")
  /\ b.1.1 = a.1.1.
Proof. vm_compute. repeat split; tauto. Qed.

(** C8 with a backend that rejects. *)
Lemma backend_failure_is_absorbed_witness :
  (healSelector scene "#submit" None (fresh true (blank None))).1.1 = Return None
  /\ (findElement scene "#submit" None (fresh true (blank None))).1.1
     = Throw (JsError (failure_message "#submit"))
  /\ count_events is_repair
       (findElement scene "#submit" None (fresh true (blank None))).2 = 1%nat.
Proof.
  destruct (backend_failure_is_absorbed scene "#submit" None
              (fresh true (blank None)))
    as [(r & s1 & l1 & Hheal & Hdown) Hfind].
  split.
  - rewrite Hheal. cbn [fst]. f_equal.
    vm_compute in Hheal. injection Hheal as _ _ <-.
    eapply Hdown. right; right; right; left. reflexivity.
  - destruct (findElement scene "#submit" None (fresh true (blank None)))
      as [[out s'] evs] eqn:Hrun.
    destruct (Hfind out s' evs eq_refl) as (_ & _ & Hrejected & Hthrown).
    cbn [fst snd].
    assert (Hout : out = Throw (JsError (failure_message "#submit"))).
    { vm_compute in Hrun. injection Hrun as _ _ <-.
      eapply Hrejected. do 5 right. left. reflexivity. }
    split; [exact Hout|]. now destruct (Hthrown _ Hout).
Defined.

(** C3 on the redesigned page, with a five-minute-old entry for [#submit]
    whose healed selector [#send] no longer resolves. *)
Lemma stale_entry_is_replaced_witness :
  exists s' evs t',
    findElement scene "#submit" None (with_cache (healed_at 6900000) redesigned)
    = (Return (locator "#submit-v2"), s', evs)
    /\ In (EvCacheDelete "#submit") evs
    /\ cache s'
       = <["#submit" := mkEntry "#submit-v2" t' default_confidence]>
           (healed_at 6900000).
Proof.
  destruct (stale_entry_is_replaced scene "#submit" None
              (with_cache (healed_at 6900000) redesigned)
              (mkEntry "#send" 6900000 default_confidence) 7200000
              redesigned redesigned redesigned)
    as (r & w4 & tail & out & s' & rest & Hheal & Hfind & Hsome & _);
    [reflexivity..|].
  vm_compute in Hheal. injection Hheal as <- _ _.
  destruct (Hsome "#submit-v2" eq_refl) as (_ & -> & t' & Hcache);
    [discriminate|].
  eexists s', _, t'. split; [exact Hfind|]. split; [|exact Hcache].
  cbn. tauto.
Defined.

(** C5 on the redesigned page, with an entry stamped two hours ago. *)
Lemma expired_entry_not_replayed_witness :
  0 + 61 * 60 * 1000 <= 7200000
  /\ count_events is_replay
       (findElement scene "#submit" None (with_cache (healed_at 0) redesigned)).2
     = 0%nat.
Proof.
  split; [lia|].
  destruct (expired_entry_not_replayed scene "#submit" None
              (with_cache (healed_at 0) redesigned)
              (mkEntry "#send" 0 default_confidence) 7200000
              redesigned redesigned)
    as (_ & out & s' & tail & Hfind & Hcount);
    [reflexivity..|cbn; lia|].
  rewrite Hfind. exact Hcount.
Defined.

(** C9 where nothing resolves and the backend rejects: the two-hour-old
    entry is still there after the call. *)
Lemma expired_entry_is_kept_witness :
  cache_ttl <= 7200000 - 0
  /\ cache (findElement scene "#submit" None
              (with_cache (healed_at 0) (blank None))).1.2 !! "#submit"
     = Some (mkEntry "#send" 0 default_confidence).
Proof.
  split; [unfold cache_ttl; lia|].
  destruct (expired_entry_is_kept scene "#submit" None
              (with_cache (healed_at 0) (blank None))
              (mkEntry "#send" 0 default_confidence) 7200000
              (blank None) (blank None))
    as [Hexpired _]; [reflexivity..|].
  destruct Hexpired as (out & s' & evs & Hfind & _ & _ & Hthrown & _);
    [unfold cache_ttl; cbn; lia|].
  rewrite Hfind. cbn [fst snd]. apply Hthrown.
  vm_compute in Hfind. injection Hfind as <- _ _. eauto.
Defined.

(** C9 as stated fails: a lookup that finds the entry expired leaves it in
    the cache. *)
Lemma expired_entry_survives_lookup :
  let s := with_cache (healed_at 0) (blank None) in
  let r := findElement scene "#submit" None s in
  cache s !! "#submit" = Some (mkEntry "#send" 0 default_confidence)
  /\ cache_ttl < 7200000 - 0
  /\ In (EvDateNow 7200000) r.2
  /\ count_events is_replay r.2 = 0%nat
  /\ r.1.1 = Throw (JsError "Could not find or heal selector: #submit")
  /\ cache r.1.2 !! "#submit" = Some (mkEntry "#send" 0 default_confidence).
Proof. vm_compute. repeat split; tauto. Qed.

(** C4 on the redesigned page: after the repair the file holds the
    in-memory map; and [clearCache] leaves no file. *)
Lemma store_is_flushed_clear_unlinks_witness :
  (let s' := (findElement scene "#submit" None (fresh true redesigned)).1.2 in
   is_Some (cache s' !! "#submit") /\ persisted (disk s') = cache s')
  /\ (let s' := (clearCache scene (with_cache (healed_at 0) redesigned)).1.2 in
      disk s' = None /\ cache s' = ∅).
Proof.
  split.
  - destruct (store_is_flushed_clear_unlinks scene (fresh true redesigned))
      as (_ & Hstore & _).
    destruct (findElement scene "#submit" None (fresh true redesigned))
      as [[out s'] evs] eqn:Hrun.
    cbn [fst snd].
    destruct (Hstore "#submit" None out s' evs (take 8 evs) "#submit"
                (mkEntry "#submit-v2" 7200000 default_confidence)
                (drop 9 evs) Hrun)
      as (Hk & ok & Hpost & Hdisk).
    { vm_compute in Hrun. injection Hrun as _ _ <-. reflexivity. }
    split; [now rewrite Hk|]. apply Hdisk.
    vm_compute in Hrun. injection Hrun as _ <- <-.
    vm_compute in Hpost. now injection Hpost as <-.
  - destruct (store_is_flushed_clear_unlinks scene
                (with_cache (healed_at 0) redesigned))
      as (_ & _ & out & s' & evs & Hclear & Hempty & _ & Hdisk).
    rewrite Hclear. cbn [fst snd]. split; [|exact Hempty].
    apply Hdisk. vm_compute in Hclear. now injection Hclear as <- _ _.
Defined.

(** C4 as stated fails.  With a five-minute-old entry whose healed selector
    no longer resolves and a backend that rejects, the call deletes the
    entry and writes nothing: the file still holds the entry that the
    in-memory map has lost.  And [clearCache] resets the map and unlinks
    the file without writing the map. *)
Lemma deletion_not_flushed :
  let s := with_cache (healed_at 6900000) (blank None) in
  let r := findElement scene "#submit" None s in
  In (EvCacheDelete "#submit") r.2
  /\ count_events is_write r.2 = 0%nat
  /\ cache r.1.2 !! "#submit" = None
  /\ persisted (disk r.1.2) !! "#submit"
     = Some (mkEntry "#send" 6900000 default_confidence)
  /\ (clearCache scene s).2 = [EvCacheReset; EvUnlink true].
Proof. vm_compute. repeat split; tauto. Qed.

(** C10 on three environments. *)
Lemma enabled_unless_false_witness :
  enabled (constructor scene {[ "ENABLE_SELF_HEALING" := "FALSE" ]}
             None original).1.2 = true
  /\ enabled (constructor scene ∅ None original).1.2 = true
  /\ enabled (constructor scene {[ "ENABLE_SELF_HEALING" := "false" ]}
               None original).1.2 <> true.
Proof.
  split; [|split].
  - destruct (enabled_unless_false scene
                {[ "ENABLE_SELF_HEALING" := "FALSE" ]} None original)
      as (_ & _ & Hother).
    apply (Hother "FALSE"); [reflexivity|now left].
  - destruct (enabled_unless_false scene ∅ None original) as (_ & Hunset & _).
    apply Hunset. reflexivity.
  - destruct (enabled_unless_false scene
                {[ "ENABLE_SELF_HEALING" := "false" ]} None original)
      as ([Hiff _] & _).
    intros Hon. now apply Hiff in Hon.
Defined.

(** ** Further properties of the class *)

Lemma Forall_false_not_In {A} (p : A -> bool) (l : list A) x :
  Forall (fun e => p e = false) l -> p x = true -> ~ In x l.
Proof.
  intros Hall Hx Hin. rewrite Forall_forall in Hall.
  apply list_elem_of_In, Hall in Hin. congruence.
Qed.

Section Further.

Context {World : Type} (ext : Externals World).
Implicit Types (s : State World) (w : World) (selector : string).

Lemma Miss_other s selector pre c k :
  Miss s selector pre c -> k <> selector -> c !! k = cache s !! k.
Proof.
  destruct 1; intros Hk; try reflexivity. now apply lookup_delete_ne.
Qed.

(** X1. The cache-hit path: the primary selector fails, the cache holds an
    entry for it that is younger than the lifetime, and the healed selector
    of the entry resolves.  The call returns the locator of the healed
    selector after exactly four steps (failed wait, cache read, clock,
    successful wait): no repair, no backend call, and the cache, the file
    and the flag are what they were. *)
Theorem cached_hit_skips_repair selector description s cached t w1 w2 w3 :
  enabled s = true ->
  page_waitFor ext (world s) selector wait_timeout = (false, w1) ->
  cache s !! selector = Some cached ->
  date_now ext w1 = (t, w2) ->
  t - timestamp cached < cache_ttl ->
  page_waitFor ext w2 (healedSelector cached) wait_timeout = (true, w3) ->
  findElement ext selector description s
  = (Return (locator (healedSelector cached)), set_world w3 s,
     [EvWaitFor Primary selector false; EvCacheRead selector; EvDateNow t;
      EvWaitFor Cached (healedSelector cached) true]).
Proof.
  intros Hon Hprimary Hc Hnow Hage Hreplay.
  rewrite findElement_run, Hon, Hprimary. cbn [negb]. cbn zeta.
  rewrite replay_cached_run. cbn [set_world cache world].
  rewrite Hc, Hnow. cbn zeta.
  destruct (Z.ltb_spec (t - timestamp cached) cache_ttl); [|lia].
  now rewrite Hreplay.
Qed.

(** X2. A call of [findElement] for one selector leaves the entries of
    every other selector alone. *)
Theorem other_selectors_untouched selector description s out s' evs k :
  findElement ext selector description s = (out, s', evs) ->
  k <> selector ->
  cache s' !! k = cache s !! k.
Proof.
  intros Hrun%findElement_Run Hk.
  destruct Hrun as [Hon|w Hon|cached t w Hon Hc Hage
                   |pre c tail z t ok w Hon Hmiss Hall Hvalid Hup Hone Hz entry
                   |pre c tail w Hon Hmiss Hall Hone]; cbn [cache set_world];
    try reflexivity.
  - rewrite lookup_insert_ne by congruence. now apply (Miss_other s selector pre).
  - now apply (Miss_other s selector pre).
Qed.

(** X3. A call that throws has stored nothing: it made no assignment into
    the cache and no write to the file, the file is what it was, and every
    entry of the cache afterwards was there before. *)
Theorem failed_call_stores_nothing selector description s e s' evs :
  findElement ext selector description s = (Throw e, s', evs) ->
  count_events is_store evs = 0%nat
  /\ count_events is_write evs = 0%nat
  /\ disk s' = disk s
  /\ forall k entry, cache s' !! k = Some entry -> cache s !! k = Some entry.
Proof.
  intros Hrun%findElement_Run. inversion Hrun as [| | | |pre c tail w Hon Hmiss Hall Hone]; subst.
  destruct (Miss_facts s selector pre c Hmiss) as (Hs & _ & Hw & Hkeep).
  destruct (inside_repair_facts tail Hall) as (Hs' & _ & Hw' & _).
  rewrite !count_events_cons, !count_events_app, !count_events_cons.
  rewrite (count_events_none _ _ Hs), (count_events_none _ _ Hs'),
    (count_events_none _ _ Hw), (count_events_none _ _ Hw').
  cbn. repeat split; auto.
Qed.

(** X4. When the file holds the in-memory map before a call, it still does
    after every call that returns a locator and in which no write failed. *)
Theorem sync_preserved selector description s l s' evs :
  in_sync s ->
  findElement ext selector description s = (Return l, s', evs) ->
  (forall c, ~ In (EvWriteFile c false) evs) ->
  in_sync s'.
Proof.
  unfold in_sync. intros Hsync Hrun%findElement_Run Hwrites.
  inversion Hrun as [Hon|w Hon|cached t w Hon Hc Hage
                    |pre c tail z t ok w Hon Hmiss Hall Hvalid Hup Hone Hz entry
                    |]; subst; cbn [cache disk set_world]; try exact Hsync.
  destruct ok; [reflexivity|]. exfalso.
  apply (Hwrites (<[selector:=entry]> c)).
  right. apply in_or_app; right. right. apply in_or_app; right.
  cbn. tauto.
Qed.

(** X6. A write that fails does not fail the call: the call still returns
    the locator of the candidate it has just put into the in-memory cache,
    and the file is what it was. *)
Theorem failed_write_still_returns selector description s out s' evs c :
  findElement ext selector description s = (out, s', evs) ->
  In (EvWriteFile c false) evs ->
  disk s' = disk s
  /\ cache s' = c
  /\ exists entry,
       c !! selector = Some entry
       /\ out = Return (locator (healedSelector entry)).
Proof.
  intros Hrun%findElement_Run Hin.
  destruct Hrun as [Hon|w Hon|cached t w Hon Hc Hage
                   |pre c0 tail z t ok w Hon Hmiss Hall Hvalid Hup Hone Hz entry
                   |pre c0 tail w Hon Hmiss Hall Hone].
  - destruct Hin.
  - cbn in Hin. intuition discriminate.
  - cbn in Hin. intuition discriminate.
  - destruct (Miss_facts s selector pre c0 Hmiss) as (_ & _ & Hw & _).
    destruct (inside_repair_facts tail Hall) as (_ & _ & Hw' & _).
    destruct Hin as [Hin|Hin]; [discriminate|].
    apply in_app_or in Hin as [Hin|[Hin|Hin]]; [|discriminate|].
    { now apply (Forall_false_not_In is_write) in Hin. }
    apply in_app_or in Hin as [Hin|Hin].
    { now apply (Forall_false_not_In is_write) in Hin. }
    destruct Hin as [Hin|[Hin|[Hin|[]]]]; try discriminate.
    injection Hin as <- ->. cbn [cache disk].
    split; [reflexivity|]. split; [reflexivity|].
    exists entry. split; [apply lookup_insert_eq|reflexivity].
  - exfalso. destruct (Miss_facts s selector pre c0 Hmiss) as (_ & _ & Hw & _).
    destruct (inside_repair_facts tail Hall) as (_ & _ & Hw' & _).
    destruct Hin as [Hin|Hin]; [discriminate|].
    apply in_app_or in Hin as [Hin|[Hin|Hin]]; [|discriminate|];
      now apply (Forall_false_not_In is_write) in Hin.
Qed.

Lemma healSelector_Repair selector description s :
  exists r w evs,
    healSelector ext selector description s = (Return r, set_world w s, evs)
    /\ Repair selector description r evs.
Proof.
  unfold healSelector, screenshot, evaluate, askWithImage.
  unfold bind, try_catch, ask_world, emit, gets, modify, ret, throw.
  destruct s as [on c d w0]; cbn.
  destruct (page_screenshot ext w0) as [[img|] w1]; cbn.
  2:{ eexists _, _, _; split; [reflexivity|constructor]. }
  destruct (page_evaluate ext w1) as [[inv|] w2]; cbn.
  2:{ eexists _, _, _; split; [reflexivity|constructor]. }
  destruct (ai_askWithImage ext w2 _) as [[reply|] w3]; cbn.
  2:{ eexists _, _, _; split; [reflexivity|constructor]. }
  rewrite waitFor_run; cbn.
  destruct (page_waitFor ext w3 _ wait_timeout) as [[] w4]; cbn;
    (eexists _, _, _; split; [reflexivity|]).
  - apply (repair_replied selector description img inv reply true).
  - apply (repair_replied selector description img inv reply false).
Qed.

Lemma Repair_head selector description r evs :
  Repair selector description r evs ->
  exists tail, evs = EvHealSelector selector :: tail
               /\ Forall (fun e => inside_repair e = true) tail.
Proof. destruct 1; eexists; (split; [reflexivity|repeat constructor]). Qed.

(** A call that requests the repair: what came before it, the repair, and
    what came after it. *)
Lemma findElement_Repair selector description s out s' evs :
  findElement ext selector description s = (out, s', evs) ->
  In (EvHealSelector selector) evs ->
  exists pre c r tail post,
    Miss s selector pre c
    /\ Repair selector description r tail
    /\ evs = EvWaitFor Primary selector false :: pre ++ tail ++ post
    /\ (post = []
        \/ exists t entry c' ok,
             post = [EvDateNow t; EvCacheSet selector entry; EvWriteFile c' ok])
    /\ out = (match r with
              | Some z => if bool_decide (z = "")
                          then Throw (JsError (failure_message selector))
                          else Return (locator z)
              | None => Throw (JsError (failure_message selector))
              end).
Proof.
  rewrite findElement_run.
  destruct (enabled s) eqn:Hon; cbn [negb].
  2:{ intros [= <- <- <-] []. }
  destruct (page_waitFor ext (world s) selector wait_timeout) as [[] w1].
  { intros [= <- <- <-] [|[]]; discriminate. }
  cbn zeta.
  destruct (replay_cached_returns ext selector (set_world w1 s))
    as (r1 & s2 & l2 & Hreplay).
  rewrite Hreplay. destruct r1 as [l|].
  { intros [= <- <- <-] Hin. exfalso.
    apply replay_cached_hit in Hreplay as (cached & t & w & _ & _ & _ & _ & ->).
    cbn in Hin. intuition discriminate. }
  apply replay_cached_miss in Hreplay as (c & w2 & -> & Hmiss).
  assert (Hmiss' : Miss s selector l2 c).
  { destruct s; inversion Hmiss; subst; cbn in *; econstructor; eauto. }
  clear Hmiss.
  destruct (healSelector_Repair selector description
              (mkState (enabled (set_world w1 s)) c (disk (set_world w1 s)) w2))
    as (r & w3 & tail & Hheal & Hrepair).
  rewrite Hheal. intros Hrun _.
  exists l2, c, r, tail.
  destruct r as [z|].
  2:{ injection Hrun as <- <- <-. exists [].
      rewrite app_nil_r. repeat split; auto. }
  case_bool_decide as Hz.
  { injection Hrun as <- <- <-. exists [].
    rewrite app_nil_r. repeat split; auto. }
  destruct (stored_cache ext selector z
              (set_world w3 (mkState (enabled (set_world w1 s)) c
                               (disk (set_world w1 s)) w2)))
    as (t & ok & w4 & Hstored).
  rewrite Hstored in Hrun. cbn [fst snd] in Hrun.
  injection Hrun as <- <- <-.
  eexists. split; [exact Hmiss'|]. split; [exact Hrepair|].
  split; [reflexivity|]. split; [right; eauto|reflexivity].
Qed.

Lemma ask_implies_repair selector description s out s' evs req reply :
  findElement ext selector description s = (out, s', evs) ->
  In (EvAskWithImage req reply) evs ->
  In (EvHealSelector selector) evs.
Proof.
  intros Hrun%findElement_Run Hin.
  destruct Hrun as [Hon|w Hon|cached t w Hon Hc Hage
                   |pre c tail z t ok w Hon Hmiss Hall Hvalid Hup Hone Hz entry
                   |pre c tail w Hon Hmiss Hall Hone].
  - destruct Hin.
  - cbn in Hin. intuition discriminate.
  - cbn in Hin. intuition discriminate.
  - right. apply in_or_app; right. now left.
  - right. apply in_or_app; right. now left.
Qed.

(** Where the backend request of a call sits, and what the call returns. *)
Lemma findElement_ask selector description s out s' evs req reply :
  findElement ext selector description s = (out, s', evs) ->
  In (EvAskWithImage req reply) evs ->
  exists r tail,
    Repair selector description r tail
    /\ In (EvAskWithImage req reply) tail
    /\ out = (match r with
              | Some z => if bool_decide (z = "")
                          then Throw (JsError (failure_message selector))
                          else Return (locator z)
              | None => Throw (JsError (failure_message selector))
              end).
Proof.
  intros Hrun Hin.
  pose proof (ask_implies_repair _ _ _ _ _ _ _ _ Hrun Hin) as Hheal.
  destruct (findElement_Repair _ _ _ _ _ _ Hrun Hheal)
    as (pre & c & r & tail & post & Hmiss & Hrepair & -> & Hpost & ->).
  exists r, tail. split; [exact Hrepair|]. split; [|reflexivity].
  destruct (Miss_no_backend s selector pre c Hmiss) as (Hpre & _).
  destruct Hin as [Hin|Hin]; [discriminate|].
  apply in_app_or in Hin as [Hin|Hin].
  { now apply (Forall_false_not_In is_ai_call) in Hin. }
  apply in_app_or in Hin as [Hin|Hin]; [exact Hin|].
  destruct Hpost as [->|(t & entry & c' & ok & ->)];
    cbn in Hin; intuition discriminate.
Qed.


(** X13. A reply that cleans to the empty string (blank, or nothing but a
    pair of quotes) never gives a locator: the call throws the error that
    names the primary selector, even if the page would let the empty
    selector resolve. *)
Theorem blank_reply_throws selector description s out s' evs req text :
  findElement ext selector description s = (out, s', evs) ->
  In (EvAskWithImage req (Some text)) evs ->
  clean_response text = "" ->
  out = Throw (JsError (failure_message selector)).
Proof.
  intros Hrun Hin Hblank.
  destruct (findElement_ask _ _ _ _ _ _ _ _ Hrun Hin)
    as (r & tail & Hrepair & Hask & ->).
  destruct Hrepair as [| |image structure|image structure reply resolved];
    cbn in Hask; try reflexivity.
  destruct Hask as [|[|[|[Hask|[|[]]]]]]; try discriminate.
  injection Hask as _ <-. rewrite Hblank.
  now destruct resolved.
Qed.

(** X12. The repair is a last resort.  A call that requests it has the
    feature enabled, began with a failed wait on the primary selector, saw
    no wait on a cached selector succeed, and requests it once, for the
    primary selector. *)
Theorem repair_only_after_failures selector description s out s' evs selector' :
  findElement ext selector description s = (out, s', evs) ->
  In (EvHealSelector selector') evs ->
  selector' = selector
  /\ enabled s = true
  /\ (exists rest, evs = EvWaitFor Primary selector false :: rest)
  /\ (forall site z, In (EvWaitFor site z true) evs -> site = Candidate)
  /\ count_events is_repair evs = 1%nat.
Proof.
  intros Hrun Hin.
  assert (Hsame : selector' = selector /\ enabled s = true
                  /\ count_events is_repair evs = 1%nat).
  { apply findElement_Run in Hrun.
    destruct Hrun as [Hon|w Hon|cached t w Hon Hc Hage
                     |pre c tail z t ok w Hon Hmiss Hall Hvalid Hup Hone Hz entry
                     |pre c tail w Hon Hmiss Hall Hone].
    - destruct Hin.
    - cbn in Hin. intuition discriminate.
    - cbn in Hin. intuition discriminate.
    - destruct (repair_counts s selector pre c tail
                  [EvDateNow t; EvCacheSet selector entry;
                   EvWriteFile (<[selector:=entry]> c) ok] Hmiss Hall Hone)
        as (Hr & _); [repeat constructor..|].
      split; [|now split].
      destruct (Miss_facts s selector pre c Hmiss) as (_ & Hp & _).
      destruct (inside_repair_facts tail Hall) as (_ & Ht & _).
      destruct Hin as [Hin|Hin]; [discriminate|].
      apply in_app_or in Hin as [Hin|[Hin|Hin]]; [|congruence|].
      { now apply (Forall_false_not_In is_repair) in Hin. }
      apply in_app_or in Hin as [Hin|Hin].
      { now apply (Forall_false_not_In is_repair) in Hin. }
      cbn in Hin. intuition discriminate.
    - destruct (repair_counts s selector pre c tail [] Hmiss Hall Hone)
        as (Hr & _); [constructor..|].
      rewrite app_nil_r in Hr. split; [|now split].
      destruct (Miss_facts s selector pre c Hmiss) as (_ & Hp & _).
      destruct (inside_repair_facts tail Hall) as (_ & Ht & _).
      destruct Hin as [Hin|Hin]; [discriminate|].
      apply in_app_or in Hin as [Hin|[Hin|Hin]]; [|congruence|].
      { now apply (Forall_false_not_In is_repair) in Hin. }
      now apply (Forall_false_not_In is_repair) in Hin. }
  destruct Hsame as (-> & Hon & Hcount).
  destruct (findElement_Repair _ _ _ _ _ _ Hrun Hin)
    as (pre & c & r & tail & post & Hmiss & Hrepair & -> & Hpost & _).
  split; [reflexivity|]. split; [exact Hon|]. split; [eauto|].
  split; [|exact Hcount].
  intros site z [Hw|Hw]; [discriminate|].
  apply in_app_or in Hw as [Hw|Hw].
  { destruct Hmiss; cbn in Hw; intuition discriminate. }
  apply in_app_or in Hw as [Hw|Hw].
  - destruct (Repair_head _ _ _ _ Hrepair) as (tl & -> & Hall).
    destruct Hw as [Hw|Hw]; [discriminate|].
    rewrite Forall_forall in Hall. apply list_elem_of_In, Hall in Hw.
    now destruct site.
  - destruct Hpost as [->|(t & entry & c' & ok & ->)];
      cbn in Hw; intuition discriminate.
Qed.

(** X5. Calls compose through the cache.  After a call that stored an
    entry for the selector, a second call in which the primary selector
    still fails, the entry is younger than the lifetime and its healed
    selector resolves returns the same locator as the first, with no repair
    and no backend call. *)
Theorem second_call_hits_cache selector description description'
    s out s1 evs pre k entry post t w1 w2 w3 :
  findElement ext selector description s = (out, s1, evs) ->
  evs = pre ++ EvCacheSet k entry :: post ->
  page_waitFor ext (world s1) selector wait_timeout = (false, w1) ->
  date_now ext w1 = (t, w2) ->
  t - timestamp entry < cache_ttl ->
  page_waitFor ext w2 (healedSelector entry) wait_timeout = (true, w3) ->
  exists evs',
    findElement ext selector description' s1 = (out, set_world w3 s1, evs')
    /\ count_events is_repair evs' = 0%nat
    /\ count_events is_ai_call evs' = 0%nat.
Proof.
  intros Hfirst Hevs Hprimary Hnow Hage Hreplay.
  destruct (findElement_store ext _ _ _ _ _ _ _ _ _ _ Hfirst Hevs)
    as (-> & _ & -> & Hk & _).
  assert (Hon : enabled s1 = true).
  { apply findElement_Run in Hfirst.
    inversion Hfirst; subst; try reflexivity; cbn [enabled set_world];
      try assumption.
    match goal with
    | H : [] = _ ++ _ :: _ |- _ => destruct pre; discriminate H
    end. }
  exists [EvWaitFor Primary selector false; EvCacheRead selector; EvDateNow t;
          EvWaitFor Cached (healedSelector entry) true].
  split; [|split; reflexivity].
  rewrite findElement_run, Hon, Hprimary. cbn [negb]. cbn zeta.
  rewrite replay_cached_run. cbn [set_world cache world].
  rewrite Hk, Hnow. cbn zeta.
  destruct (Z.ltb_spec (t - timestamp entry) cache_ttl); [|lia].
  now rewrite Hreplay.
Qed.

(** X7. [clearCache] always empties the in-memory map and keeps the flag.
    Without a cache file it touches nothing else.  With one, it asks the
    file system to unlink it and writes nothing: when the unlink goes
    through the file is gone and the call returns; when the unlink fails
    the failure is not caught, so the call throws the file-system error
    with the map already empty and the file still holding its old content.
    The call throws in no other case. *)
Theorem clearCache_edges s :
  (disk s = None ->
   clearCache ext s = (Return tt, set_cache ∅ s, [EvCacheReset]))
  /\ (forall w', is_Some (disk s) ->
        fs_attempt ext (world s) = (true, w') ->
        clearCache ext s
        = (Return tt, mkState (enabled s) ∅ None w',
           [EvCacheReset; EvUnlink true]))
  /\ (forall w', is_Some (disk s) ->
        fs_attempt ext (world s) = (false, w') ->
        clearCache ext s
        = (Throw FsError, mkState (enabled s) ∅ (disk s) w',
           [EvCacheReset; EvUnlink false]))
  /\ (forall out s' evs,
        clearCache ext s = (out, s', evs) ->
        cache s' = ∅
        /\ enabled s' = enabled s
        /\ (forall e, out = Throw e ->
              e = FsError /\ disk s' = disk s /\ is_Some (disk s)
              /\ (fs_attempt ext (world s)).1 = false
              /\ evs = [EvCacheReset; EvUnlink false])).
Proof.
  unfold clearCache, bind, gets, ask_world, emit, modify, ret, throw.
  destruct s as [on c [d|] w]; cbn.
  - split; [discriminate|].
    split; [intros w' _ ->; reflexivity|].
    split; [intros w' _ ->; reflexivity|].
    destruct (fs_attempt ext w) as [[] w']; cbn; intros out s' evs;
      intros [= <- <- <-]; cbn; repeat split; try discriminate; eauto.
    all: congruence.
  - split; [reflexivity|].
    split; [intros w' [d Hd]; discriminate|].
    split; [intros w' [d Hd]; discriminate|].
    intros out s' evs [= <- <- <-]; cbn. repeat split; discriminate.
Qed.

(** X8. The constructor never throws and never changes the file.  Without
    a file it asks nothing of the file system and starts with an empty
    cache.  With a file it reads it once: when the read goes through and
    the content parses, the cache is the parsed map; when the read fails,
    or the content does not parse, the cache is empty. *)
Theorem constructor_never_throws (env : gmap string string) file w :
  exists s evs,
    constructor ext env file w = (Return tt, s, evs)
    /\ disk s = file
    /\ (file = None -> cache s = ∅ /\ evs = [] /\ world s = w)
    /\ (forall data, file = Some data ->
          evs = [EvReadFile (fs_attempt ext w).1]
          /\ world s = (fs_attempt ext w).2)
    /\ (forall c w', file = Some (Json c) ->
          fs_attempt ext w = (true, w') -> cache s = c)
    /\ (forall raw, file = Some (Unparseable raw) -> cache s = ∅)
    /\ (forall w', fs_attempt ext w = (false, w') -> cache s = ∅).
Proof.
  unfold constructor, loadCache, try_catch, bind, gets, ask_world, emit,
    modify, ret, throw.
  destruct file as [[c|raw]|]; cbn.
  - destruct (fs_attempt ext w) as [[] w']; cbn; eexists _, _;
      (split; [reflexivity|]); cbn; repeat split; try discriminate;
      try (intros; simplify_eq; reflexivity).
  - destruct (fs_attempt ext w) as [[] w']; cbn; eexists _, _;
      (split; [reflexivity|]); cbn; repeat split; try discriminate.
  - eexists _, _; (split; [reflexivity|]); cbn; repeat split; discriminate.
Qed.

(** X9. A repair survives a restart.  After a call whose write to the file
    went through, an object constructed from that file, when the file can
    be read, starts with the cache the call left, the entry of the
    returned candidate included. *)
Theorem repair_survives_restart selector description s out s' evs c
    (env : gmap string string) w' :
  findElement ext selector description s = (out, s', evs) ->
  In (EvWriteFile c true) evs ->
  fs_attempt ext (world s') = (true, w') ->
  cache (constructor ext env (disk s') (world s')).1.2 = cache s'
  /\ exists entry,
       cache s' !! selector = Some entry
       /\ out = Return (locator (healedSelector entry)).
Proof.
  intros Hrun%findElement_Run Hin Hread.
  rewrite (constructor_cache ext env (disk s') (world s') w' Hread).
  destruct Hrun as [Hon|w Hon|cached t w Hon Hc Hage
                   |pre c0 tail z t ok w Hon Hmiss Hall Hvalid Hup Hone Hz entry
                   |pre c0 tail w Hon Hmiss Hall Hone].
  - destruct Hin.
  - cbn in Hin. intuition discriminate.
  - cbn in Hin. intuition discriminate.
  - destruct (Miss_facts s selector pre c0 Hmiss) as (_ & _ & Hw & _).
    destruct (inside_repair_facts tail Hall) as (_ & _ & Hw' & _).
    destruct Hin as [Hin|Hin]; [discriminate|].
    apply in_app_or in Hin as [Hin|[Hin|Hin]]; [|discriminate|].
    { now apply (Forall_false_not_In is_write) in Hin. }
    apply in_app_or in Hin as [Hin|Hin].
    { now apply (Forall_false_not_In is_write) in Hin. }
    destruct Hin as [Hin|[Hin|[Hin|[]]]]; try discriminate.
    injection Hin as <- ->. cbn [cache disk persisted].
    split; [reflexivity|].
    exists entry. split; [apply lookup_insert_eq|reflexivity].
  - exfalso. destruct (Miss_facts s selector pre c0 Hmiss) as (_ & _ & Hw & _).
    destruct (inside_repair_facts tail Hall) as (_ & _ & Hw' & _).
    destruct Hin as [Hin|Hin]; [discriminate|].
    apply in_app_or in Hin as [Hin|[Hin|Hin]]; [|discriminate|];
      now apply (Forall_false_not_In is_write) in Hin.
Qed.

End Further.

(** ** Facts about the cleaning of a reply *)

Lemma append_cons (c : ascii) (a b : string) :
  String c a +:+ b = String c (a +:+ b).
Proof. reflexivity. Qed.

Lemma append_nil_left (s : string) : "" +:+ s = s.
Proof. reflexivity. Qed.

Lemma append_nil_right (s : string) : s +:+ "" = s.
Proof.
  induction s as [|c s IH]; [reflexivity|]. now rewrite append_cons, IH.
Qed.

Lemma append_associative (a b c : string) : (a +:+ b) +:+ c = a +:+ (b +:+ c).
Proof.
  induction a as [|x a IH]; [reflexivity|]. now rewrite !append_cons, IH.
Qed.

Lemma rev_app_append (s1 s2 : string) :
  String.rev_app s1 s2 = String.rev s1 +:+ s2.
Proof.
  unfold String.rev. revert s2.
  induction s1 as [|c s1 IH]; intros s2; cbn [String.rev_app]; [reflexivity|].
  rewrite IH, (IH (String c "")), append_associative. reflexivity.
Qed.

Lemma rev_cons (c : ascii) (s : string) :
  String.rev (String c s) = String.rev s +:+ String c "".
Proof. unfold String.rev at 1. cbn [String.rev_app]. apply rev_app_append. Qed.

Lemma rev_append (a b : string) :
  String.rev (a +:+ b) = String.rev b +:+ String.rev a.
Proof.
  induction a as [|c a IH].
  - rewrite append_nil_left. change (String.rev "") with "".
    now rewrite append_nil_right.
  - rewrite append_cons, !rev_cons, IH, append_associative. reflexivity.
Qed.

Lemma rev_involutive (s : string) : String.rev (String.rev s) = s.
Proof.
  induction s as [|c s IH]; [reflexivity|].
  rewrite rev_cons, rev_append, IH. reflexivity.
Qed.

Lemma all_spaces_append (a b : string) :
  all_spaces (a +:+ b) = all_spaces a && all_spaces b.
Proof.
  induction a as [|c a IH]; [reflexivity|].
  rewrite append_cons. cbn [all_spaces]. rewrite IH.
  now destruct (is_js_space c).
Qed.

Lemma all_spaces_rev (s : string) : all_spaces (String.rev s) = all_spaces s.
Proof.
  induction s as [|c s IH]; [reflexivity|].
  rewrite rev_cons, all_spaces_append, IH. cbn [all_spaces].
  destruct (all_spaces s), (is_js_space c); reflexivity.
Qed.

Lemma trimStart_spaces (ws x : string) :
  all_spaces ws = true -> trimStart (ws +:+ x) = trimStart x.
Proof.
  induction ws as [|c ws IH]; [reflexivity|].
  cbn [all_spaces]. intros [Hc Hws]%andb_prop.
  rewrite append_cons. cbn [trimStart]. rewrite Hc. auto.
Qed.

Lemma trimEnd_spaces (x ws : string) :
  all_spaces ws = true -> trimEnd (x +:+ ws) = trimEnd x.
Proof.
  intros Hws. unfold trimEnd.
  rewrite rev_append, trimStart_spaces; [reflexivity|].
  now rewrite all_spaces_rev.
Qed.

Lemma quote_not_space (q : ascii) : is_quote q = true -> is_js_space q = false.
Proof.
  unfold is_quote. intros [Hq|Hq]%orb_prop;
    apply bool_decide_eq_true in Hq; subst; reflexivity.
Qed.

Lemma trimStart_plain (s : string) : plain_front s = true -> trimStart s = s.
Proof.
  destruct s as [|c s]; [reflexivity|]. cbn [plain_front trimStart].
  intros [Hc _]%andb_prop. apply negb_true_iff in Hc. now rewrite Hc.
Qed.

Lemma strip_front_plain (s : string) : plain_front s = true -> strip_front s = s.
Proof.
  destruct s as [|c s]; [reflexivity|]. cbn [plain_front strip_front].
  intros [_ Hc]%andb_prop. apply negb_true_iff in Hc. now rewrite Hc.
Qed.

Lemma trimEnd_last (x : string) (c : ascii) :
  is_js_space c = false -> trimEnd (x +:+ String c "") = x +:+ String c "".
Proof.
  intros Hc. unfold trimEnd. rewrite rev_append.
  change (String.rev (String c "")) with (String c "").
  rewrite append_cons, append_nil_left. cbn [trimStart]. rewrite Hc.
  now rewrite rev_cons, rev_involutive.
Qed.

Lemma strip_back_last (x : string) (q : ascii) :
  is_quote q = true -> strip_back (x +:+ String q "") = x.
Proof.
  intros Hq. unfold strip_back. rewrite rev_append.
  change (String.rev (String q "")) with (String q "").
  rewrite append_cons, append_nil_left. cbn [strip_front]. rewrite Hq.
  apply rev_involutive.
Qed.

(** X10. A reply that consists of white space, a quote, a body, a quote and
    white space is cleaned to exactly its body: the two quotes need not be
    of the same kind, and quotes inside the body, also at its ends, stay. *)
Theorem clean_response_unwraps (ws1 ws2 body : string) (q1 q2 : ascii) :
  all_spaces ws1 = true ->
  all_spaces ws2 = true ->
  is_quote q1 = true ->
  is_quote q2 = true ->
  clean_response (ws1 +:+ String q1 (body +:+ String q2 ws2)) = body.
Proof.
  intros H1 H2 Hq1 Hq2. unfold clean_response, trim.
  rewrite trimStart_spaces by exact H1.
  cbn [trimStart]. rewrite (quote_not_space q1 Hq1).
  assert (Hshape : String q1 (body +:+ String q2 ws2)
                   = (String q1 body +:+ String q2 "") +:+ ws2).
  { now rewrite append_associative, !append_cons, append_nil_left. }
  rewrite Hshape, trimEnd_spaces by exact H2.
  rewrite trimEnd_last by exact (quote_not_space q2 Hq2).
  unfold strip_quotes. rewrite append_cons. cbn [strip_front]. rewrite Hq1.
  now apply strip_back_last.
Qed.

(** X14. A reply whose body begins and ends with a character that is
    neither white space nor a quote loses only the white space around the
    body. *)
Theorem clean_response_keeps_plain (ws1 ws2 body : string) :
  all_spaces ws1 = true ->
  all_spaces ws2 = true ->
  plain_front body = true ->
  plain_front (String.rev body) = true ->
  clean_response (ws1 +:+ body +:+ ws2) = body.
Proof.
  intros H1 H2 Hfront Hback. unfold clean_response, trim.
  rewrite trimStart_spaces by exact H1.
  destruct body as [|c body].
  { rewrite append_nil_left.
    assert (Hnone : trimStart ws2 = "").
    { rewrite <- (append_nil_right ws2). now apply trimStart_spaces. }
    rewrite Hnone. reflexivity. }
  assert (Hkeep : trimStart (String c body +:+ ws2) = String c body +:+ ws2).
  { apply trimStart_plain. rewrite append_cons. exact Hfront. }
  rewrite Hkeep, trimEnd_spaces by exact H2.
  unfold trimEnd. rewrite (trimStart_plain _ Hback), rev_involutive.
  unfold strip_quotes. rewrite (strip_front_plain _ Hfront).
  unfold strip_back. rewrite (strip_front_plain _ Hback).
  apply rev_involutive.
Qed.

(** ** The further properties on scripted pages *)

(** X1 on the page after an earlier repair, with a five-minute-old entry. *)
Lemma cached_hit_skips_repair_witness :
  findElement scene "#submit" None (with_cache (healed_at 6900000) healed_page)
  = (Return (locator "#send"), with_cache (healed_at 6900000) healed_page,
     [EvWaitFor Primary "#submit" false; EvCacheRead "#submit";
      EvDateNow 7200000; EvWaitFor Cached "#send" true]).
Proof.
  apply (cached_hit_skips_repair scene "#submit" None
           (with_cache (healed_at 6900000) healed_page)
           (mkEntry "#send" 6900000 default_confidence) 7200000
           healed_page healed_page healed_page); reflexivity.
Defined.

(** X2: a repair of [#submit] leaves the entry of [#login] alone. *)
Lemma other_selectors_untouched_witness :
  cache (findElement scene "#submit" None
           (with_cache (<["#login" := mkEntry "#signin" 0 default_confidence]>
                          (healed_at 6900000)) redesigned)).1.2 !! "#login"
  = Some (mkEntry "#signin" 0 default_confidence).
Proof.
  destruct (findElement scene "#submit" None
              (with_cache (<["#login" := mkEntry "#signin" 0 default_confidence]>
                             (healed_at 6900000)) redesigned))
    as [[out s'] evs] eqn:Hrun.
  cbn [fst snd].
  rewrite (other_selectors_untouched scene "#submit" None _ out s' evs "#login"
             Hrun); [reflexivity|discriminate].
Defined.

(** X3 where nothing resolves and the backend proposes [#send]. *)
Lemma failed_call_stores_nothing_witness :
  disk (findElement scene "#submit" None (fresh true (blank (Some "#send")))).1.2
  = None.
Proof.
  destruct (findElement scene "#submit" None (fresh true (blank (Some "#send"))))
    as [[out s'] evs] eqn:Hrun.
  assert (Hout : out = Throw (JsError (failure_message "#submit"))).
  { vm_compute in Hrun. now injection Hrun as <- _ _. }
  subst out.
  destruct (failed_call_stores_nothing scene "#submit" None _ _ s' evs Hrun)
    as (_ & _ & Hdisk & _).
  exact Hdisk.
Defined.

(** X4 on the redesigned page, starting from a file that holds the map. *)
Lemma sync_preserved_witness :
  in_sync (findElement scene "#submit" None
             (with_cache (healed_at 6900000) redesigned)).1.2.
Proof.
  destruct (findElement scene "#submit" None
              (with_cache (healed_at 6900000) redesigned))
    as [[out s'] evs] eqn:Hrun.
  assert (Hout : out = Return (locator "#submit-v2")
                 /\ forall c, ~ In (EvWriteFile c false) evs).
  { vm_compute in Hrun. injection Hrun as <- _ <-. split; [reflexivity|].
    intros c Hin. cbn in Hin. intuition discriminate. }
  destruct Hout as [-> Hwrites].
  apply (sync_preserved scene "#submit" None
           (with_cache (healed_at 6900000) redesigned)
           (locator "#submit-v2") s' evs);
    [unfold in_sync; reflexivity|exact Hrun|exact Hwrites].
Defined.

(** X5 on the redesigned page: the call after the repair is served from the
    cache. *)
Lemma second_call_hits_cache_witness :
  let first := findElement scene "#submit" None (fresh true redesigned) in
  exists evs',
    findElement scene "#submit" (Some "the submit button") first.1.2
    = (first.1.1, first.1.2, evs')
    /\ first.1.1 = Return (locator "#submit-v2")
    /\ count_events is_ai_call evs' = 0%nat.
Proof.
  cbn zeta.
  destruct (findElement scene "#submit" None (fresh true redesigned))
    as [[out s1] evs] eqn:Hrun.
  cbn [fst snd].
  assert (Hshape : evs = take 8 evs
                         ++ EvCacheSet "#submit"
                              (mkEntry "#submit-v2" 7200000 default_confidence)
                            :: drop 9 evs
                   /\ world s1 = redesigned
                   /\ out = Return (locator "#submit-v2")).
  { vm_compute in Hrun. injection Hrun as <- <- <-. repeat split. }
  destruct Hshape as (Hevs & Hworld & Hout).
  destruct (second_call_hits_cache scene "#submit" None
              (Some "the submit button") _ out s1 evs _ _ _ _ 7200000
              redesigned redesigned redesigned Hrun Hevs)
    as (evs' & Hsecond & _ & Hnone);
    [rewrite Hworld; reflexivity|reflexivity|reflexivity|reflexivity|].
  exists evs'. split; [|split; [exact Hout|exact Hnone]].
  rewrite Hsecond. f_equal. f_equal. destruct s1; cbn in *. now subst.
Defined.

(** X6 on the redesigned page with a file system that refuses the write. *)
Lemma failed_write_still_returns_witness :
  let r := findElement scene "#submit" None (fresh true read_only) in
  r.1.1 = Return (locator "#submit-v2") /\ disk r.1.2 = None.
Proof.
  cbn zeta.
  destruct (findElement scene "#submit" None (fresh true read_only))
    as [[out s'] evs] eqn:Hrun.
  cbn [fst snd].
  destruct (failed_write_still_returns scene "#submit" None _ out s' evs
              {[ "#submit" := mkEntry "#submit-v2" 7200000 default_confidence ]}
              Hrun)
    as (Hdisk & _ & entry & Hentry & ->).
  { vm_compute in Hrun. injection Hrun as _ _ <-.
    do 9 right. left. reflexivity. }
  split; [|exact Hdisk].
  rewrite lookup_singleton_eq in Hentry. now injection Hentry as <-.
Defined.

(** X7 with a file and a file system that refuses the unlink. *)
Lemma clearCache_edges_witness :
  is_Some (disk (with_cache (healed_at 0) read_only))
  /\ fs_attempt scene read_only = (false, read_only)
  /\ clearCache scene (with_cache (healed_at 0) read_only)
     = (Throw FsError,
        mkState true ∅ (Some (Json (healed_at 0))) read_only,
        [EvCacheReset; EvUnlink false]).
Proof.
  assert (Hfile : is_Some (disk (with_cache (healed_at 0) read_only)))
    by (eexists; reflexivity).
  split; [exact Hfile|]. split; [reflexivity|].
  destruct (clearCache_edges scene (with_cache (healed_at 0) read_only))
    as (_ & _ & Hfails & _).
  exact (Hfails read_only Hfile eq_refl).
Defined.

(** X8 with a file that is read and parses, with one whose content does
    not parse, and with one that cannot be read. *)
Lemma constructor_never_throws_witness :
  cache (constructor scene ∅ (Some (Json (healed_at 0))) original).1.2
  = healed_at 0
  /\ cache (constructor scene ∅ (Some (Unparseable "{")) original).1.2 = ∅
  /\ cache (constructor scene ∅ (Some (Json (healed_at 0))) read_only).1.2 = ∅.
Proof.
  split; [|split].
  - destruct (constructor_never_throws scene ∅ (Some (Json (healed_at 0)))
                original)
      as (s & evs & Hrun & _ & _ & _ & Hread & _).
    rewrite Hrun. cbn [fst snd].
    exact (Hread (healed_at 0) original eq_refl eq_refl).
  - destruct (constructor_never_throws scene ∅ (Some (Unparseable "{"))
                original)
      as (s & evs & Hrun & _ & _ & _ & _ & Hbad & _).
    rewrite Hrun. cbn [fst snd]. exact (Hbad "{" eq_refl).
  - destruct (constructor_never_throws scene ∅ (Some (Json (healed_at 0)))
                read_only)
      as (s & evs & Hrun & _ & _ & _ & _ & _ & Hdenied).
    rewrite Hrun. cbn [fst snd]. exact (Hdenied read_only eq_refl).
Defined.

(** X9 on the redesigned page. *)
Lemma repair_survives_restart_witness :
  let s' := (findElement scene "#submit" None (fresh true redesigned)).1.2 in
  cache (constructor scene ∅ (disk s') (world s')).1.2 !! "#submit"
  = Some (mkEntry "#submit-v2" 7200000 default_confidence).
Proof.
  cbn zeta.
  destruct (findElement scene "#submit" None (fresh true redesigned))
    as [[out s'] evs] eqn:Hrun.
  cbn [fst snd].
  destruct (repair_survives_restart scene "#submit" None _ out s' evs
              {[ "#submit" := mkEntry "#submit-v2" 7200000 default_confidence ]}
              ∅ redesigned Hrun)
    as (Hcache & _).
  { vm_compute in Hrun. injection Hrun as _ _ <-.
    do 9 right. left. reflexivity. }
  { vm_compute in Hrun. now injection Hrun as _ <- _. }
  rewrite Hcache. vm_compute in Hrun. now injection Hrun as _ <- _.
Defined.

(** X10: a double quote in front, a single quote behind. *)
Lemma clean_response_unwraps_witness :
  clean_response (nl +:+ String dquote ("#submit-v2" +:+ String squote " "))
  = "#submit-v2".
Proof.
  apply (clean_response_unwraps nl " " "#submit-v2" dquote squote);
    reflexivity.
Defined.

(** X14: a selector with quotes inside. *)
Lemma clean_response_keeps_plain_witness :
  clean_response (" " +:+ "button:has-text('Send') >> nth=0" +:+ nl)
  = "button:has-text('Send') >> nth=0".
Proof.
  apply (clean_response_keeps_plain " " nl "button:has-text('Send') >> nth=0");
    reflexivity.
Defined.


(** X12 on the redesigned page. *)
Lemma repair_only_after_failures_witness :
  count_events is_repair
    (findElement scene "#submit" None (fresh true redesigned)).2 = 1%nat.
Proof.
  destruct (findElement scene "#submit" None (fresh true redesigned))
    as [[out s'] evs] eqn:Hrun.
  cbn [snd].
  destruct (repair_only_after_failures scene "#submit" None _ out s' evs
              "#submit" Hrun)
    as (_ & _ & _ & _ & Hcount); [|exact Hcount].
  vm_compute in Hrun. injection Hrun as _ _ <-.
  right; right; left. reflexivity.
Defined.

(** X13 on a page where the empty selector resolves. *)
Lemma blank_reply_throws_witness :
  page_waitFor scene permissive "" wait_timeout = (true, permissive)
  /\ (findElement scene "#submit" None (fresh true permissive)).1.1
     = Throw (JsError (failure_message "#submit")).
Proof.
  split; [reflexivity|].
  destruct (findElement scene "#submit" None (fresh true permissive))
    as [[out s'] evs] eqn:Hrun.
  cbn [fst].
  eapply (blank_reply_throws scene "#submit" None _ out s' evs _ "''" Hrun);
    [|reflexivity].
  vm_compute in Hrun. injection Hrun as _ _ <-.
  do 5 right. left. reflexivity.
Defined.

(** ** The AI client behind the repair *)

Section ClientFacts.

Context {World : Type}.
Variable sdk : World -> CreateParams -> option (list ContentBlock) * World.
Variable base : Externals World.
Implicit Types (s : State World) (w : World) (client : AIClient).

(** What the backend oracle of [with_client] does with a request. *)
Lemma with_client_ask client w req :
  ai_askWithImage (with_client sdk base client) w req
  = let '(answer, w') := sdk w (repair_params client req) in
    (match answer with
     | Some content =>
         match first_text content with inr text => Some text | inl _ => None end
     | None => None
     end, w').
Proof.
  cbn. unfold client_askWithImage, create_text, repair_params. cbn.
  destruct (sdk w _) as [[content|] w']; reflexivity.
Qed.

(** X15. [askWithImage] sends one request and returns the text of the
    first content block exactly when that block is of type 'text'; blocks
    after the first are ignored, and an empty content, another type of
    block or a rejected request all make it throw. *)
Theorem askWithImage_returns_first_text client prompt image mediaType options
    systemPrompt w text w' :
  client_askWithImage sdk client prompt image mediaType options systemPrompt w
  = (inr text, w')
  <-> exists block rest,
        sdk w (mkParams (getModelId client (options ≫= opt_model))
                 (pick_maxTokens client options) systemPrompt
                 (PartsContent [ImagePart (default "image/png" mediaType) image;
                                TextPart prompt]))
        = (Some (block :: rest), w')
        /\ block_type block = "text" /\ block_text block = text.
Proof.
  unfold client_askWithImage, create_text.
  destruct (sdk w _) as [[[|block rest]|] w0]; cbn [first_text].
  - split; [discriminate|]. intros (b & r & [=] & _).
  - case_bool_decide as Htype.
    + split.
      * intros [= <- <-]. now exists block, rest.
      * intros (b & r & [= <- <- <-] & _ & <-). reflexivity.
    + split; [discriminate|].
      intros (b & r & [= <- <- <-] & Hb & _). contradiction.
  - split; [discriminate|]. intros (b & r & [=] & _).
Qed.


(** X17. An answer of the SDK without a leading text block is no repair:
    when the screenshot and the inventory are there and the SDK answers the
    repair request with an empty content or with a first block of another
    type, [healSelector] returns null, and does not wait for any
    candidate. *)
Theorem non_text_answer_is_no_repair client selector description s
    image structure content w1 w2 w3 :
  page_screenshot base (world s) = (Some image, w1) ->
  page_evaluate base w1 = (Some structure, w2) ->
  sdk w2 (mkParams "claude-3-haiku-20240307" (Some 1024) (Some system_prompt)
            (PartsContent
               [ImagePart "image/png" image;
                TextPart (build_prompt selector description structure)]))
  = (Some content, w3) ->
  (forall text, first_text content <> inr text) ->
  healSelector (with_client sdk base client) selector description s
  = (Return None, set_world w3 s,
     [EvHealSelector selector; EvScreenshot true; EvEvaluate true;
      EvAskWithImage
        (mkAsk (build_prompt selector description structure) image
               "image/png" haiku 1024 system_prompt) None]).
Proof.
  intros Hshot Hinv Hsdk Hnone.
  unfold healSelector, screenshot, evaluate, askWithImage.
  unfold bind, try_catch, ask_world, emit, gets, modify, ret, throw.
  destruct s as [on c d w0]. cbn [world set_world enabled cache disk] in *.
  change (page_screenshot (with_client sdk base client)) with (page_screenshot base).
  change (page_evaluate (with_client sdk base client)) with (page_evaluate base).
  rewrite Hshot. cbn [world set_world enabled cache disk].
  rewrite Hinv. cbn [world set_world enabled cache disk].
  rewrite with_client_ask.
  change (repair_params client
            (mkAsk (build_prompt selector description structure) image
                   "image/png" haiku 1024 system_prompt))
    with (mkParams "claude-3-haiku-20240307" (Some 1024) (Some system_prompt)
            (PartsContent
               [ImagePart "image/png" image;
                TextPart (build_prompt selector description structure)])).
  rewrite Hsdk.
  destruct (first_text content) as [e|text] eqn:Hfirst.
  - reflexivity.
  - destruct (Hnone text eq_refl).
Qed.

End ClientFacts.

(** X18. The client's constructor fails exactly when [ANTHROPIC_API_KEY] is
    unset or empty.  A client it builds has the opus model as its default,
    maps every model name to an identifier of the table, and takes 4096 as
    its default for max_tokens when [AI_MAX_TOKENS] is unset or empty. *)
Theorem client_constructor_edges (env : gmap string string) :
  (truthy (env !! "ANTHROPIC_API_KEY") = false <->
   AIClient_constructor env
   = inl (MissingKey "ANTHROPIC_API_KEY is not set in environment variables"))
  /\ forall client,
       AIClient_constructor env = inr client ->
       getModelId client None = modelMap opus
       /\ (forall m, getModelId client (Some m) = modelMap m)
       /\ (truthy (env !! "AI_MAX_TOKENS") = false ->
           defaultMaxTokens client = Some 4096).
Proof.
  unfold AIClient_constructor.
  destruct (truthy (env !! "ANTHROPIC_API_KEY")).
  - split; [split; discriminate|].
    intros client [= <-]. cbn [getModelId defaultModel defaultMaxTokens].
    split; [reflexivity|]. split; [now intros []|].
    intros ->. reflexivity.
  - split; [split; reflexivity|]. intros client [=].
Qed.

(** ** Facts about the extraction from a reply *)

Lemma strip_prefix_append (p s : string) : strip_prefix p (p +:+ s) = Some s.
Proof.
  induction p as [|a p IH]; [reflexivity|].
  rewrite append_cons. cbn [strip_prefix]. now rewrite bool_decide_eq_true_2.
Qed.

Lemma no_backtick_append (a b : string) :
  no_backtick (a +:+ b) = no_backtick a && no_backtick b.
Proof.
  induction a as [|c a IH]; [reflexivity|].
  rewrite append_cons. cbn [no_backtick]. rewrite IH.
  now destruct (negb (bool_decide (c = ascii_of_nat 96))).
Qed.

Lemma no_backtick_rev (s : string) : no_backtick (String.rev s) = no_backtick s.
Proof.
  induction s as [|c s IH]; [reflexivity|].
  rewrite rev_cons, no_backtick_append, IH. cbn [no_backtick].
  destruct (no_backtick s), (negb (bool_decide (c = ascii_of_nat 96)));
    reflexivity.
Qed.

Lemma no_backtick_trimStart (s : string) :
  no_backtick s = true -> no_backtick (trimStart s) = true.
Proof.
  induction s as [|c s IH]; [reflexivity|]. cbn [trimStart].
  destruct (is_js_space c); [|auto].
  cbn [no_backtick]. intros [_ Hs]%andb_prop. auto.
Qed.

Lemma no_backtick_strip_prefix (p s rest : string) :
  strip_prefix p s = Some rest -> no_backtick s = true -> no_backtick rest = true.
Proof.
  revert s. induction p as [|a p IH]; intros s; cbn [strip_prefix].
  - now intros [= <-].
  - destruct s as [|b s]; [discriminate|].
    case_bool_decide; [|discriminate].
    cbn [no_backtick]. intros Hp [_ Hs]%andb_prop. eauto.
Qed.

Lemma no_backtick_drop_label (labels : list string) (s : string) :
  no_backtick s = true -> no_backtick (drop_label labels s) = true.
Proof.
  induction labels as [|l ls IH]; [auto|]. cbn [drop_label]. intros Hs.
  destruct (strip_prefix l s) as [rest|] eqn:Hl; [|auto].
  exact (no_backtick_strip_prefix _ _ _ Hl Hs).
Qed.

(** A fence is found right after a stretch without backticks. *)
Lemma split_first_fence (pre rest : string) :
  no_backtick pre = true ->
  split_first fence (pre +:+ fence +:+ rest) = Some (pre, rest).
Proof.
  induction pre as [|c pre IH].
  - intros _. rewrite append_nil_left.
    destruct rest; reflexivity.
  - cbn [no_backtick]. intros [Hc Hpre]%andb_prop.
    apply negb_true_iff, bool_decide_eq_false in Hc.
    rewrite append_cons. cbn [split_first].
    assert (Hno : strip_prefix fence (String c (pre +:+ fence +:+ rest)) = None).
    { unfold fence. cbn [strip_prefix].
      case_bool_decide as Heq; [|reflexivity]. now subst c. }
    rewrite Hno, (IH Hpre). reflexivity.
Qed.

Lemma split_first_fence_none (s : string) :
  no_backtick s = true -> split_first fence s = None.
Proof.
  induction s as [|c s IH]; [reflexivity|].
  cbn [no_backtick]. intros [Hc Hs]%andb_prop.
  apply negb_true_iff, bool_decide_eq_false in Hc.
  cbn [split_first].
  assert (Hno : strip_prefix fence (String c s) = None).
  { unfold fence. cbn [strip_prefix].
    case_bool_decide as Heq; [|reflexivity]. now subst c. }
  rewrite Hno, (IH Hs). reflexivity.
Qed.

(** A label without backticks cannot reach into a following backtick. *)
Lemma strip_prefix_before_backtick (l inner rest : string) :
  no_backtick l = true ->
  strip_prefix l (inner +:+ String backtick rest)
  = (fun r => r +:+ String backtick rest) <$> strip_prefix l inner.
Proof.
  revert inner. induction l as [|a l IH]; intros inner; [reflexivity|].
  cbn [no_backtick]. intros [Ha Hl]%andb_prop.
  apply negb_true_iff, bool_decide_eq_false in Ha.
  destruct inner as [|b inner].
  - rewrite append_nil_left. cbn [strip_prefix].
    case_bool_decide as Heq; [|reflexivity]. now destruct Ha.
  - rewrite append_cons. cbn [strip_prefix].
    case_bool_decide; [now apply IH|reflexivity].
Qed.

Lemma drop_label_before_backtick (labels : list string) (inner rest : string) :
  Forall (fun l => no_backtick l = true) labels ->
  drop_label labels (inner +:+ String backtick rest)
  = drop_label labels inner +:+ String backtick rest.
Proof.
  induction 1 as [|l ls Hl _ IH]; [reflexivity|]. cbn [drop_label].
  rewrite (strip_prefix_before_backtick l inner rest Hl).
  destruct (strip_prefix l inner); [reflexivity|exact IH].
Qed.

Lemma trimStart_before_backtick (x rest : string) :
  trimStart (x +:+ String backtick rest) = trimStart x +:+ String backtick rest.
Proof.
  induction x as [|c x IH]; [reflexivity|].
  rewrite append_cons. cbn [trimStart].
  destruct (is_js_space c); [exact IH|reflexivity].
Qed.

Lemma trimStart_idempotent (s : string) : trimStart (trimStart s) = trimStart s.
Proof.
  induction s as [|c s IH]; [reflexivity|]. cbn [trimStart].
  destruct (is_js_space c) eqn:Hc; [exact IH|].
  cbn [trimStart]. now rewrite Hc.
Qed.

(** The line feed that the expression leaves out of the group makes no
    difference once the group is trimmed. *)
Lemma trim_drop_last_newline (z : string) :
  trim (drop_last_newline (trimStart z)) = trim z.
Proof.
  unfold trim at 2. set (y := trimStart z).
  assert (Hy : trimStart y = y) by apply trimStart_idempotent.
  clearbody y. unfold drop_last_newline.
  destruct (String.rev y) as [|c r] eqn:Hrev.
  { unfold trim. now rewrite Hy. }
  case_bool_decide as Hc; [|unfold trim; now rewrite Hy].
  subst c.
  assert (Hsplit : y = String.rev r +:+ nl).
  { rewrite <- (rev_involutive y), Hrev, rev_cons. reflexivity. }
  assert (Hfront : trimStart (String.rev r) = String.rev r).
  { destruct (String.rev r) as [|d q] eqn:Hr.
    - reflexivity.
    - rewrite Hsplit, append_cons in Hy. cbn [trimStart] in *.
      destruct (is_js_space d); [|reflexivity].
      exfalso. apply (f_equal String.length) in Hy.
      assert (Hle : forall s, (String.length (trimStart s) <= String.length s)%nat).
      { clear. induction s as [|c s IH]; cbn [trimStart String.length]; [lia|].
        destruct (is_js_space c); cbn [String.length]; lia. }
      specialize (Hle (q +:+ nl)). cbn [String.length] in Hy. lia. }
  unfold trim. rewrite Hfront, Hsplit.
  symmetry. now apply trimEnd_spaces.
Qed.

(** A fenced block between two stretches free of backticks is captured. *)
Lemma fenced_block labels (pre inner post : string) :
  Forall (fun l => no_backtick l = true) labels ->
  no_backtick pre = true ->
  no_backtick inner = true ->
  trim <$> fenced_capture labels (pre +:+ fence +:+ inner +:+ fence +:+ post)
  = Some (trim (drop_label labels inner)).
Proof.
  intros Hlabels Hpre Hinner. unfold fenced_capture.
  rewrite (split_first_fence pre _ Hpre).
  change (inner +:+ fence +:+ post)
    with (inner +:+ String backtick (String backtick (String backtick post))).
  rewrite (drop_label_before_backtick labels _ _ Hlabels).
  rewrite trimStart_before_backtick.
  change (String backtick (String backtick (String backtick post)))
    with (fence +:+ post).
  rewrite split_first_fence
    by now apply no_backtick_trimStart, no_backtick_drop_label.
  cbn [fmap option_fmap option_map]. f_equal. apply trim_drop_last_newline.
Qed.

(** A single fence, with no backtick before or after it, is no match. *)
Lemma unclosed_fence labels (pre rest : string) :
  no_backtick pre = true ->
  no_backtick rest = true ->
  fenced_capture labels (pre +:+ fence +:+ rest) = None.
Proof.
  intros Hpre Hrest. unfold fenced_capture.
  rewrite (split_first_fence pre _ Hpre).
  now rewrite split_first_fence_none
    by now apply no_backtick_trimStart, no_backtick_drop_label.
Qed.

(** X19. [extractJSON] on a reply with a fenced block: when neither the
    text before the first fence nor the block has a backtick, the result is
    the block, without a leading "json" label, trimmed, whatever follows
    the closing fence and whatever braces the surrounding text has.  A
    label other than "json" stays in the result. *)
Theorem extractJSON_fenced (pre inner post : string) :
  no_backtick pre = true ->
  no_backtick inner = true ->
  extractJSON (pre +:+ fence +:+ inner +:+ fence +:+ post)
  = trim (drop_label ["json"] inner).
Proof.
  intros Hpre Hinner. unfold extractJSON.
  pose proof (fenced_block ["json"] pre inner post) as Hblock.
  destruct (fenced_capture ["json"] _) as [captured|].
  - injection (Hblock ltac:(repeat constructor) Hpre Hinner) as ->. reflexivity.
  - discriminate (Hblock ltac:(repeat constructor) Hpre Hinner).
Qed.

(** X20. [extractCodeFromMarkdown] on a reply with a fenced block: the
    block without a leading "typescript" or "ts", trimmed.  Only these two
    labels are known, "typescript" first: of any other label that begins
    with "ts" the rest stays in the code, and any other label stays
    whole. *)
Theorem extractCode_fenced (pre inner post : string) :
  no_backtick pre = true ->
  no_backtick inner = true ->
  extractCodeFromMarkdown (pre +:+ fence +:+ inner +:+ fence +:+ post)
  = trim (drop_label ["typescript"; "ts"] inner).
Proof.
  intros Hpre Hinner. unfold extractCodeFromMarkdown.
  pose proof (fenced_block ["typescript"; "ts"] pre inner post) as Hblock.
  destruct (fenced_capture ["typescript"; "ts"] _) as [captured|].
  - injection (Hblock ltac:(repeat constructor) Hpre Hinner) as ->. reflexivity.
  - discriminate (Hblock ltac:(repeat constructor) Hpre Hinner).
Qed.

Lemma lacks_append (c : ascii) (a b : string) :
  lacks c (a +:+ b) = lacks c a && lacks c b.
Proof.
  induction a as [|d a IH]; [reflexivity|].
  rewrite append_cons. cbn [lacks]. rewrite IH.
  now destruct (negb (bool_decide (d = c))).
Qed.

Lemma lacks_rev (c : ascii) (s : string) : lacks c (String.rev s) = lacks c s.
Proof.
  induction s as [|d s IH]; [reflexivity|].
  rewrite rev_cons, lacks_append, IH. cbn [lacks].
  destruct (lacks c s), (negb (bool_decide (d = c))); reflexivity.
Qed.

Lemma split_first_char (c : ascii) (pre rest : string) :
  lacks c pre = true ->
  split_first (String c "") (pre +:+ String c rest) = Some (pre, rest).
Proof.
  induction pre as [|d pre IH].
  - intros _. rewrite append_nil_left. cbn [split_first strip_prefix].
    now rewrite bool_decide_eq_true_2.
  - cbn [lacks]. intros [Hd Hpre]%andb_prop.
    apply negb_true_iff, bool_decide_eq_false in Hd.
    rewrite append_cons. cbn [split_first strip_prefix].
    rewrite bool_decide_eq_false_2 by congruence.
    now rewrite (IH Hpre).
Qed.

Lemma braces_found (pre mid post : string) :
  lacks "{" pre = true ->
  lacks "}" post = true ->
  braces (pre +:+ "{" +:+ mid +:+ "}" +:+ post) = Some ("{" +:+ mid +:+ "}").
Proof.
  intros Hpre Hpost. unfold braces.
  change (pre +:+ "{" +:+ mid +:+ "}" +:+ post)
    with (pre +:+ String "{" (mid +:+ "}" +:+ post)).
  rewrite (split_first_char "{" pre _ Hpre).
  rewrite rev_append, rev_append.
  change (String.rev "}") with "}".
  rewrite append_associative.
  change ("}" +:+ String.rev mid) with (String "}" (String.rev mid)).
  rewrite split_first_char by now rewrite lacks_rev.
  now rewrite rev_involutive.
Qed.

(** X21. Without a fenced block, [extractJSON] returns the stretch from the
    first opening brace to the last closing brace, untrimmed inside and
    with everything between them, other braces included. *)
Theorem extractJSON_braces (pre mid post : string) :
  fenced_capture ["json"] (pre +:+ "{" +:+ mid +:+ "}" +:+ post) = None ->
  lacks "{" pre = true ->
  lacks "}" post = true ->
  extractJSON (pre +:+ "{" +:+ mid +:+ "}" +:+ post) = "{" +:+ mid +:+ "}".
Proof.
  intros Hfence Hpre Hpost. unfold extractJSON.
  now rewrite Hfence, (braces_found pre mid post Hpre Hpost).
Qed.

(** X22. A fence that is never closed (a reply cut short) is not seen as a
    block.  [extractJSON] then falls back to the braces of the whole
    reply, or to the trimmed reply; [extractCodeFromMarkdown] returns the
    whole reply trimmed, its fence and label included. *)
Theorem unclosed_fence_falls_back (pre rest : string) :
  no_backtick pre = true ->
  no_backtick rest = true ->
  extractJSON (pre +:+ fence +:+ rest)
  = match braces (pre +:+ fence +:+ rest) with
    | Some found => found
    | None => trim (pre +:+ fence +:+ rest)
    end
  /\ extractCodeFromMarkdown (pre +:+ fence +:+ rest)
     = trim (pre +:+ fence +:+ rest).
Proof.
  intros Hpre Hrest. unfold extractJSON, extractCodeFromMarkdown.
  now rewrite !(unclosed_fence _ pre rest Hpre Hrest).
Qed.

(** ** The client and the extraction on examples *)

(** X15: only the first block counts. *)
Lemma askWithImage_returns_first_text_witness :
  client_askWithImage text_sdk (mkClient (modelMap opus) None)
    "prompt" "aW1n" None None None redesigned
  = (inr " '#submit-v2' ", redesigned).
Proof.
  apply (askWithImage_returns_first_text text_sdk).
  exists (mkBlock "text" " '#submit-v2' "), [mkBlock "text" "more"].
  repeat split.
Defined.


(** X17: the SDK answers the repair request with a tool-use block. *)
Lemma non_text_answer_is_no_repair_witness :
  (healSelector (with_client tool_sdk scene (mkClient (modelMap opus) (Some 4096)))
     "#submit" None (fresh true redesigned)).1.1
  = Return None.
Proof.
  rewrite (non_text_answer_is_no_repair tool_sdk scene
             (mkClient (modelMap opus) (Some 4096)) "#submit" None
             (fresh true redesigned) "aW1n" "[]" [mkBlock "tool_use" ""]
             redesigned redesigned redesigned);
    [reflexivity|reflexivity|reflexivity|reflexivity|].
  intros text. discriminate.
Defined.

(** X18: an empty key, and a key with [AI_MAX_TOKENS] unset. *)
Lemma client_constructor_edges_witness :
  AIClient_constructor {[ "ANTHROPIC_API_KEY" := "" ]}
  = inl (MissingKey "ANTHROPIC_API_KEY is not set in environment variables")
  /\ AIClient_constructor {[ "ANTHROPIC_API_KEY" := "sk-test" ]}
     = inr (mkClient "claude-opus-4-5-20251101" (Some 4096)).
Proof.
  split.
  - now apply (client_constructor_edges {[ "ANTHROPIC_API_KEY" := "" ]}).
  - destruct (AIClient_constructor {[ "ANTHROPIC_API_KEY" := "sk-test" ]})
      as [e|client] eqn:Hnew; [discriminate|].
    destruct (client_constructor_edges {[ "ANTHROPIC_API_KEY" := "sk-test" ]})
      as (_ & Hbuilt).
    destruct (Hbuilt client Hnew) as (Hdefault & _ & Htokens).
    destruct client as [model tokens]. cbn in Hdefault, Htokens.
    rewrite Hdefault, Htokens; reflexivity.
Defined.

(** X19: a "json" block in the middle of prose with braces, and a block
    labelled "javascript". *)
Lemma extractJSON_fenced_witness :
  extractJSON ("{see} " +:+ fence +:+ ("json" +:+ nl +:+ "{ }" +:+ nl)
               +:+ fence +:+ " {done}")
  = "{ }"
  /\ extractJSON ("" +:+ fence +:+ ("javascript" +:+ nl +:+ "{ }" +:+ nl)
                  +:+ fence +:+ "")
     = "javascript" +:+ nl +:+ "{ }".
Proof.
  split.
  - rewrite (extractJSON_fenced "{see} " ("json" +:+ nl +:+ "{ }" +:+ nl)
               " {done}"); reflexivity.
  - rewrite (extractJSON_fenced "" ("javascript" +:+ nl +:+ "{ }" +:+ nl) "");
      reflexivity.
Defined.

(** X20: of the label "tsx" the x stays. *)
Lemma extractCode_fenced_witness :
  extractCodeFromMarkdown
    ("Here: " +:+ fence +:+ ("tsx" +:+ nl +:+ "test()" +:+ nl) +:+ fence +:+ "")
  = "x" +:+ nl +:+ "test()".
Proof.
  rewrite (extractCode_fenced "Here: " ("tsx" +:+ nl +:+ "test()" +:+ nl) "");
    reflexivity.
Defined.

(** X21: two objects in a row come out as one stretch. *)
Lemma extractJSON_braces_witness :
  extractJSON ("Result: " +:+ "{" +:+ "a} and {b" +:+ "}" +:+ " .")
  = "{a} and {b}".
Proof.
  rewrite (extractJSON_braces "Result: " "a} and {b" " ."); reflexivity.
Defined.

(** X22: a reply cut short inside its block. *)
Lemma unclosed_fence_falls_back_witness :
  extractJSON ("" +:+ fence +:+ ("json" +:+ nl +:+ "{ x }"))
  = "{ x }"
  /\ extractCodeFromMarkdown ("" +:+ fence +:+ ("ts" +:+ nl +:+ "test("))
     = fence +:+ "ts" +:+ nl +:+ "test(".
Proof.
  destruct (unclosed_fence_falls_back "" ("json" +:+ nl +:+ "{ x }"))
    as [Hjson _]; [reflexivity..|].
  destruct (unclosed_fence_falls_back "" ("ts" +:+ nl +:+ "test("))
    as [_ Hcode]; [reflexivity..|].
  split; [rewrite Hjson|rewrite Hcode]; reflexivity.
Defined.

(** ** Properties of the AI assertions *)

Section AssertFacts.

Context {World : Type} (ax : AssertExternals World).
Variable JSON_parse : string -> option JsValue.
Variable display : JsValue -> string.

Lemma js_or_truthy a b : js_truthy (js_or a b) = js_truthy a || js_truthy b.
Proof. unfold js_or. now destruct (js_truthy a) eqn:Ha. Qed.

(** X23. When [parseAIResponse] returns, the parsed value was not null, the
    verdict is truthy exactly when one of the fields matches, accessible
    and valid of the parsed value is, and the confidence and the
    explanation it reports are never falsy: a confidence that is missing
    or 0 is reported as 0.5.  It throws exactly when [JSON.parse] throws
    or gives null. *)
Theorem parseAIResponse_verdict response :
  match parseAIResponse JSON_parse response with
  | inr result =>
      exists parsed m a v c,
        JSON_parse (extractJSON response) = Some parsed
        /\ parsed <> JNull
        /\ get_property parsed "matches" = Some m
        /\ get_property parsed "accessible" = Some a
        /\ get_property parsed "valid" = Some v
        /\ get_property parsed "confidence" = Some c
        /\ js_truthy (v_matches result) = js_truthy m || js_truthy a || js_truthy v
        /\ js_truthy (v_confidence result) = true
        /\ js_truthy (v_explanation result) = true
        /\ (js_truthy c = false -> v_confidence result = JNumber (Finite (1 # 2)))
  | inl InvalidJSON => JSON_parse (extractJSON response) = None
  | inl NullValue =>
      JSON_parse (extractJSON response) = Some JNull
      \/ JSON_parse (extractJSON response) = Some JUndefined
  end.
Proof.
  unfold parseAIResponse.
  destruct (JSON_parse (extractJSON response)) as [parsed|]; [|reflexivity].
  destruct parsed as [| |b|n|str|items|fields]; cbn [get_property]; auto.
  all: eexists _, _, _, _, _; split; [reflexivity|]; split; [discriminate|].
  all: do 4 (split; [reflexivity|]).
  all: cbn [v_matches v_confidence v_explanation].
  all: split; [rewrite !js_or_truthy; cbn [js_truthy];
               now rewrite ?orb_false_r, ?orb_assoc|].
  all: split; [rewrite js_or_truthy; cbn [js_truthy]; apply orb_true_r|].
  all: split; [rewrite js_or_truthy; cbn [js_truthy]; apply orb_true_r|].
  all: unfold js_or; intros Hc; now rewrite Hc.
Qed.

(** X24. With [ENABLE_AI_ASSERTIONS] set to "false", the three assertions
    pass without a screenshot, a read of the page or a question to the
    backend; with the variable unset or set to anything else they are
    enabled. *)
Theorem assertions_disabled_do_nothing (env : gmap string string)
    description selector expectedMeaning w :
  (AIAssertion_constructor env = true
   <-> env !! "ENABLE_AI_ASSERTIONS" <> Some "false")
  /\ (env !! "ENABLE_AI_ASSERTIONS" = Some "false" ->
      expectVisualState ax JSON_parse display (AIAssertion_constructor env)
        description w = (inr tt, w, [])
      /\ expectSemanticContent ax JSON_parse display (AIAssertion_constructor env)
           selector expectedMeaning w = (inr tt, w, [])
      /\ expectLayout ax JSON_parse display (AIAssertion_constructor env)
           description w = (inr tt, w, [])).
Proof.
  unfold AIAssertion_constructor. split.
  - case_bool_decide; cbn; split; congruence.
  - intros Hoff. rewrite bool_decide_eq_true_2 by exact Hoff. now cbn.
Qed.

(** X25. An enabled [expectVisualState] passes exactly when the screenshot
    is taken, the backend replies and the reply parses to a truthy
    verdict; it then took one screenshot of the viewport and asked one
    question, for the model [sonnet] with at most 2048 tokens. *)
Theorem expectVisualState_passes description w w' evs :
  expectVisualState ax JSON_parse display true description w = (inr tt, w', evs)
  <-> exists image w1 response result,
        ax_screenshot ax w false = (Some image, w1)
        /\ ax_askWithImage ax w1
             (mkAsk (visual_prompt description) image "image/png" sonnet 2048
                    visual_system_prompt) = (Some response, w')
        /\ parseAIResponse JSON_parse response = inr result
        /\ js_truthy (v_matches result) = true
        /\ evs = [AvScreenshot false true;
                  AvAskWithImage
                    (mkAsk (visual_prompt description) image "image/png" sonnet
                           2048 visual_system_prompt) (Some response)].
Proof.
  unfold expectVisualState. cbn [negb].
  destruct (ax_screenshot ax w false) as [[image|] w1].
  2:{ split; [discriminate|]. intros (i & w0 & r & v & [=] & _). }
  destruct (ax_askWithImage ax w1 _) as [[response|] w2] eqn:Hask.
  2:{ split; [discriminate|].
      intros (i & w0 & r & v & [= <- <-] & Hask' & _). congruence. }
  split.
  - destruct (parseAIResponse JSON_parse response) as [cause|result] eqn:Hparse;
      [discriminate|].
    destruct (js_truthy (v_matches result)) eqn:Hm; [|discriminate].
    intros [= <- <-]. exists image, w1, response, result. now rewrite Hask.
  - intros (i & w0 & r & v & [= <- <-] & Hask' & Hparse & Hm & ->).
    rewrite Hask in Hask'. injection Hask' as <- <-.
    now rewrite Hparse, Hm.
Qed.

(** X26. An enabled [expectSemanticContent] on an element whose text is
    null or empty throws "No text found at selector: " followed by the
    selector, and asks the backend nothing. *)
Theorem expectSemanticContent_no_text selector expectedMeaning w actual w1 :
  ax_textContent ax w selector = (Some actual, w1) ->
  truthy actual = false ->
  expectSemanticContent ax JSON_parse display true selector expectedMeaning w
  = (inl (NoTextFound ("No text found at selector: " +:+ selector)), w1,
     [AvTextContent selector (Some actual)]).
Proof.
  intros Htext Hnone. unfold expectSemanticContent. cbn [negb].
  now rewrite Htext, Hnone.
Qed.

End AssertFacts.

(** X23 on a reply that says the page does not match but is valid, with a
    confidence of 0. *)
Lemma parseAIResponse_verdict_witness :
  exists result,
    parseAIResponse sample_parse (fence +:+ "json" +:+ nl +:+ valid_only +:+ nl +:+ fence)
    = inr result
    /\ js_truthy (v_matches result) = true
    /\ v_confidence result = JNumber (Finite (1 # 2)).
Proof.
  pose proof (parseAIResponse_verdict sample_parse
                (fence +:+ "json" +:+ nl +:+ valid_only +:+ nl +:+ fence))
    as Hverdict.
  destruct (parseAIResponse sample_parse _) as [cause|result] eqn:Hparse.
  { vm_compute in Hparse. discriminate. }
  destruct Hverdict
    as (parsed & m & a & v & c & Hp & _ & Hm & Ha & Hv & Hc & Hor & _ & _ & Hhalf).
  exists result. split; [reflexivity|].
  vm_compute in Hp. injection Hp as <-.
  cbn in Hm, Ha, Hv, Hc.
  injection Hm as <-. injection Ha as <-. injection Hv as <-. injection Hc as <-.
  split; [exact Hor|]. now apply Hhalf.
Defined.

(** X24 with the variable set to "false". *)
Lemma assertions_disabled_do_nothing_witness :
  expectVisualState scene_assert sample_parse sample_display
    (AIAssertion_constructor {[ "ENABLE_AI_ASSERTIONS" := "false" ]})
    "a login form" (blank None)
  = (inr tt, blank None, []).
Proof.
  destruct (assertions_disabled_do_nothing scene_assert sample_parse
              sample_display {[ "ENABLE_AI_ASSERTIONS" := "false" ]}
              "a login form" "#title" "a greeting" (blank None))
    as (_ & Hoff).
  now destruct (Hoff eq_refl) as (Hvisual & _).
Defined.

(** X25 on a reply whose "matches" is false and whose "valid" is true: the
    visual assertion passes. *)
Lemma expectVisualState_passes_witness :
  (expectVisualState scene_assert sample_parse sample_display true
     "a login form" (blank (Some valid_only))).1.1
  = inr tt.
Proof.
  destruct (expectVisualState scene_assert sample_parse sample_display true
              "a login form" (blank (Some valid_only)))
    as [[out w'] evs] eqn:Hrun.
  cbn [fst].
  assert (Hpass : expectVisualState scene_assert sample_parse sample_display true
                    "a login form" (blank (Some valid_only))
                  = (inr tt, blank (Some valid_only),
                     [AvScreenshot false true;
                      AvAskWithImage
                        (mkAsk (visual_prompt "a login form") "aW1n" "image/png"
                               sonnet 2048 visual_system_prompt)
                        (Some valid_only)])).
  { apply (expectVisualState_passes scene_assert sample_parse sample_display).
    eexists "aW1n", _, valid_only, _.
    split; [reflexivity|]. split; [reflexivity|].
    split; [vm_compute; reflexivity|]. split; reflexivity. }
  rewrite Hpass in Hrun. now injection Hrun as <- _ _.
Defined.

(** X26 on a selector that resolves to no element text. *)
Lemma expectSemanticContent_no_text_witness :
  expectSemanticContent scene_assert sample_parse sample_display true
    "#title" "a greeting" (blank (Some no_match))
  = (inl (NoTextFound "No text found at selector: #title"),
     blank (Some no_match), [AvTextContent "#title" (Some None)]).
Proof.
  apply (expectSemanticContent_no_text scene_assert sample_parse sample_display
           "#title" "a greeting" (blank (Some no_match)) None);
    reflexivity.
Defined.

(** ** When the page lets the repair down *)

Section PageFailure.

Context {World : Type} (ext : Externals World).
Implicit Types (s : State World) (w : World) (selector : string).

Lemma inside_implies_repair selector description s out s' evs e :
  findElement ext selector description s = (out, s', evs) ->
  In e evs ->
  inside_repair e = true ->
  In (EvHealSelector selector) evs.
Proof.
  intros Hrun%findElement_Run Hin He.
  destruct Hrun as [Hon|w Hon|cached t w Hon Hc Hage
                   |pre c tail z t ok w Hon Hmiss Hall Hvalid Hup Hone Hz entry
                   |pre c tail w Hon Hmiss Hall Hone].
  - destruct Hin.
  - destruct Hin as [<-|[]]. discriminate.
  - destruct Hin as [<-|[<-|[<-|[<-|[]]]]]; discriminate.
  - right. apply in_or_app; right. now left.
  - right. apply in_or_app; right. now left.
Qed.

(** X27. When the screenshot or the inventory of the page cannot be taken,
    the repair gives up before it reaches the backend: the call throws the
    error that names the primary selector, no backend request was made and
    no candidate was waited for. *)
Theorem page_failure_skips_backend selector description s out s' evs :
  findElement ext selector description s = (out, s', evs) ->
  In (EvScreenshot false) evs \/ In (EvEvaluate false) evs ->
  out = Throw (JsError (failure_message selector))
  /\ count_events is_ai_call evs = 0%nat
  /\ forall z ok, ~ In (EvWaitFor Candidate z ok) evs.
Proof.
  intros Hrun Hfail.
  assert (Hin : exists e, In e evs /\ inside_repair e = true
                          /\ (e = EvScreenshot false \/ e = EvEvaluate false)).
  { destruct Hfail as [H|H]; eexists; (split; [exact H|]); split; auto. }
  destruct Hin as (e & Hin & He & Hkind).
  pose proof (inside_implies_repair _ _ _ _ _ _ _ Hrun Hin He) as Hheal.
  destruct (findElement_Repair ext _ _ _ _ _ _ Hrun Hheal)
    as (pre & c & r & tail & post & Hmiss & Hrepair & -> & Hpost & ->).
  destruct (Miss_no_backend s selector pre c Hmiss) as (Hpre & Hpre').
  assert (Htail : In e tail).
  { destruct Hin as [Hin|Hin]; [subst e; discriminate|].
    apply in_app_or in Hin as [Hin|Hin].
    { now apply (Forall_false_not_In inside_repair) in Hin. }
    apply in_app_or in Hin as [Hin|Hin]; [exact Hin|].
    destruct Hpost as [->|(t & entry & c' & ok & ->)]; cbn in Hin;
      destruct Hkind; subst e; intuition discriminate. }
  assert (Hshape : r = None
                   /\ (tail = [EvHealSelector selector; EvScreenshot false]
                       \/ tail = [EvHealSelector selector; EvScreenshot true;
                                  EvEvaluate false])).
  { destruct Hrepair as [| |image structure|image structure text resolved];
      try (split; [reflexivity|]; auto); exfalso;
      cbn in Htail; destruct Hkind; subst e; intuition discriminate. }
  destruct Hshape as (-> & Hshape).
  split; [reflexivity|].
  assert (Hposts : Forall (fun e => is_ai_call e = false) post
                   /\ forall z ok, ~ In (EvWaitFor Candidate z ok) post).
  { destruct Hpost as [->|(t & entry & c' & ok & ->)]; split;
      repeat constructor; intros z o Hw; cbn in Hw; intuition discriminate. }
  destruct Hposts as (Hpost1 & Hpost2).
  split.
  - rewrite count_events_cons, !count_events_app.
    rewrite (count_events_none _ _ Hpre), (count_events_none _ _ Hpost1).
    destruct Hshape as [-> | ->]; reflexivity.
  - intros z ok [Hw|Hw]; [discriminate|].
    apply in_app_or in Hw as [Hw|Hw].
    { destruct Hmiss; cbn in Hw; intuition discriminate. }
    apply in_app_or in Hw as [Hw|Hw]; [|now apply (Hpost2 z ok)].
    destruct Hshape as [-> | ->]; cbn in Hw; intuition discriminate.
Qed.

End PageFailure.

Section SemanticPass.

Context {World : Type} (ax : AssertExternals World).
Variable JSON_parse : string -> option JsValue.
Variable display : JsValue -> string.

(** X28. An enabled [expectSemanticContent] passes exactly when the element
    has a text that is not empty, the backend replies and the reply parses
    to a truthy verdict; it then read the text once and asked one question
    without an image, for the model [haiku] with at most 512 tokens and no
    system prompt. *)
Theorem expectSemanticContent_passes selector expectedMeaning w w' evs :
  expectSemanticContent ax JSON_parse display true selector expectedMeaning w
  = (inr tt, w', evs)
  <-> exists text w1 response result,
        ax_textContent ax w selector = (Some (Some text), w1)
        /\ text <> ""
        /\ ax_ask ax w1
             (mkAskText (semantic_prompt expectedMeaning text) None haiku 512)
           = (Some response, w')
        /\ parseAIResponse JSON_parse response = inr result
        /\ js_truthy (v_matches result) = true
        /\ evs = [AvTextContent selector (Some (Some text));
                  AvAsk (mkAskText (semantic_prompt expectedMeaning text) None
                                   haiku 512) (Some response)].
Proof.
  unfold expectSemanticContent. cbn [negb].
  destruct (ax_textContent ax w selector) as [[[text|]|] w1].
  - cbn [truthy default from_option]. case_bool_decide as Hempty; cbn [negb].
    { split; [discriminate|].
      intros (t & w0 & r & v & [= <- <-] & Hne & _). contradiction. }
    change (id text) with text.
    destruct (ax_ask ax w1 _) as [[response|] w2] eqn:Hask.
    2:{ split; [discriminate|].
        intros (t & w0 & r & v & [= <- <-] & _ & Hask' & _). congruence. }
    split.
    + destruct (parseAIResponse JSON_parse response) as [cause|result]
        eqn:Hparse; [discriminate|].
      destruct (js_truthy (v_matches result)) eqn:Hm; [|discriminate].
      intros [= <- <-]. exists text, w1, response, result.
      now rewrite Hask.
    + intros (t & w0 & r & v & [= <- <-] & _ & Hask' & Hparse & Hm & ->).
      rewrite Hask in Hask'. injection Hask' as <- <-.
      now rewrite Hparse, Hm.
  - cbn [truthy]. split; [discriminate|].
    intros (t & w0 & r & v & [=] & _).
  - split; [discriminate|]. intros (t & w0 & r & v & [=] & _).
Qed.

End SemanticPass.

(** X27 on a page whose screenshot cannot be taken. *)
Lemma page_failure_skips_backend_witness :
  let r := findElement scene "#submit" None
             (fresh true (mkScene [] 0 None (Some "[]") (Some "#send") true)) in
  r.1.1 = Throw (JsError (failure_message "#submit"))
  /\ count_events is_ai_call r.2 = 0%nat.
Proof.
  cbn zeta.
  destruct (findElement scene "#submit" None
              (fresh true (mkScene [] 0 None (Some "[]") (Some "#send") true)))
    as [[out s'] evs] eqn:Hrun.
  cbn [fst snd].
  destruct (page_failure_skips_backend scene "#submit" None _ out s' evs Hrun)
    as (Hout & Hnone & _); [|now split].
  left. vm_compute in Hrun. injection Hrun as _ _ <-.
  do 3 right. left. reflexivity.
Defined.

(** X28 on an element with the text "Sign in". *)
Lemma expectSemanticContent_passes_witness :
  (expectSemanticContent scene_assert sample_parse sample_display true
     "#title" "a call to log in"
     (mkScene ["#title"] 0 None None (Some valid_only) true)).1.1
  = inr tt.
Proof.
  assert (Hpass : expectSemanticContent scene_assert sample_parse sample_display
                    true "#title" "a call to log in"
                    (mkScene ["#title"] 0 None None (Some valid_only) true)
                  = (inr tt, mkScene ["#title"] 0 None None (Some valid_only) true,
                     [AvTextContent "#title" (Some (Some "Sign in"));
                      AvAsk (mkAskText
                               (semantic_prompt "a call to log in" "Sign in")
                               None haiku 512) (Some valid_only)])).
  { apply (expectSemanticContent_passes scene_assert sample_parse sample_display).
    eexists "Sign in", _, valid_only, _.
    split; [reflexivity|]. split; [discriminate|]. split; [reflexivity|].
    split; [vm_compute; reflexivity|]. split; reflexivity. }
  now rewrite Hpass.
Defined.
